(** * MeghaGaah dashboard (src/App.jsx): sensor synthesis and selection state

    A shallow embedding of the dashboard component.

    Conventions of the embedding.
    - A JavaScript Number is a binary64 value.  One that holds an integer
      (ids, anchor coordinates, indices) is a [Z], one that holds a fraction
      ([Math.random()] and what is computed from it) is the rational [Q] it
      denotes, and every [*] and [+] of the source is followed by the
      rounding of binary64 ([roundInt64] on integers, [round64] on
      rationals: to nearest, ties to even).  A literal such as [0.4] is the
      binary64 value nearest to it.  Overflow to [Infinity] (beyond 2^1024)
      is outside the numbers the synthesizer handles and is not modelled
      there; the camera logger computes on primitive binary64 floats.
    - [Math.random] is a counter into an arbitrary sequence [random : nat -> Q]
      of draws; code that draws lives in the state monad [Rand] over that
      counter, so the order and the number of draws are those of the source.
    - A JavaScript string is a [string]; characters outside ASCII are their
      UTF-8 bytes.
    - React state is a record; an event handler is a function on it; a render
      is a computation in [Rand] from the state to the rendered view. *)

From Stdlib Require Import ZArith QArith Qround Qabs List String Ascii Bool Lia.
From Stdlib Require Import DecimalString Lqa FinFun.
From Stdlib Require Import PrimFloat FloatOps SpecFloat Uint63.
Import ListNotations.

Local Open Scope string_scope.
Local Open Scope Z_scope.

(** ** Binary64 arithmetic *)

Module Binary64.

(** 2^p as a rational, for any integer p. *)
Definition pow2 (p : Z) : Q :=
  if 0 <=? p then inject_Z (2 ^ p) else 1 # Z.to_pos (2 ^ (- p)).

(** The binade of a positive rational: the e with 2^e <= a < 2^(e+1). *)
Definition binade (a : Q) : Z :=
  let c := Z.log2 (Qnum a) - Z.log2 (Z.pos (Qden a)) in
  if Qle_bool (pow2 c) a then c else c - 1.

(** The integer nearest to a rational, the even one on a tie. *)
Definition nearestEven (v : Q) : Z :=
  let f := Qfloor v in
  match (v - inject_Z f ?= 1 # 2)%Q with
  | Lt => f
  | Gt => f + 1
  | Eq => if Z.even f then f else f + 1
  end.

(** The exponent of the unit in the last place of a positive rational: 53
    significant bits, and 2^-1074 for the subnormal numbers. *)
Definition ulpExponent (a : Q) : Z := Z.max (binade a - 52) (-1074).

(** The binary64 value nearest to a rational of magnitude below 2^1024,
    ties to even: what [*] and [+] return for the exact result [v]. *)
Definition round64 (v : Q) : Q :=
  if Qeq_bool v 0 then 0%Q
  else
    let a := Qabs v in
    let p := ulpExponent a in
    let m := nearestEven (a * pow2 (- p)) in
    if Qlt_le_dec v 0 then (- (inject_Z m * pow2 p))%Q
    else (inject_Z m * pow2 p)%Q.

(** The same rounding on an integer: exact up to 2^53, 53 significant bits
    beyond. *)
Definition roundInt64 (n : Z) : Z :=
  let a := Z.abs n in
  if a <=? 2 ^ 53 then n
  else
    let e := Z.log2 a - 52 in
    let q := a / 2 ^ e in
    let r := a mod 2 ^ e in
    let half := 2 ^ (e - 1) in
    let q' := if r <? half then q
              else if half <? r then q + 1
              else if Z.even q then q else q + 1 in
    Z.sgn n * (q' * 2 ^ e).

(** The literals [0.7] and [0.4] of the source: the binary64 values nearest
    to 7/10 and to 4/10. *)
Definition literal_0_7 : Q := Eval vm_compute in round64 (7 # 10).
Definition literal_0_4 : Q := Eval vm_compute in round64 (4 # 10).

(** The rational a finite primitive float denotes. *)
Definition valueOf (f : float) : option Q :=
  match Prim2SF f with
  | S754_zero _ => Some 0%Q
  | S754_finite sg m e =>
      Some (if sg then (- (inject_Z (Z.pos m) * pow2 e))%Q
            else (inject_Z (Z.pos m) * pow2 e)%Q)
  | S754_infinity _ => None
  | S754_nan => None
  end.

End Binary64.

Import Binary64.

(** ** Number.prototype.toFixed *)

Module NumberFormat.

(** The integer [n] for which [n - x] is as close to zero as possible, the
    larger one when there are two (step 10.a of Number.prototype.toFixed). *)
Definition nearestInt (x : Q) : Z := Qfloor (x + (1 # 2)).

Definition pow10 (f : nat) : Z := 10 ^ Z.of_nat f.

(** Decimal digits of a non-negative integer, ["0"] for zero. *)
Definition digitsOf (n : Z) : string := NilEmpty.string_of_uint (N.to_uint (Z.to_N n)).

Fixpoint zeros (k : nat) : string :=
  match k with
  | O => ""
  | S k' => String "0" (zeros k')
  end.

(** Steps 10.b to 10.d: the digits of [n], padded with zeros to [f + 1]
    characters, with a point before the last [f] of them. *)
Definition fixedDigits (n : Z) (f : nat) : string :=
  let m := digitsOf n in
  match f with
  | O => m
  | _ =>
      let k := String.length m in
      let m := if (k <=? f)%nat then zeros (f + 1 - k) ++ m else m in
      let k := String.length m in
      substring 0 (k - f) m ++ "." ++ substring (k - f) f m
  end.

(** [x.toFixed(f)] for a finite [x] of magnitude below 10^21 (above it the
    method prints by Number::toString; no value formatted by the dashboard's
    synthesizer comes near). *)
Definition toFixed (x : Q) (f : nat) : string :=
  if Qlt_le_dec x 0
  then "-" ++ fixedDigits (nearestInt (- x * inject_Z (pow10 f))) f
  else fixedDigits (nearestInt (x * inject_Z (pow10 f))) f.

(** Reading a number back from the front of a string, the way [parseFloat]
    reads an unsigned decimal: digits, then optionally a point and digits.
    This is not code of the dashboard; it gives "the numeric part" of a
    formatted metric a meaning. *)
Definition digitVal (c : ascii) : option Z :=
  let n := Z.of_nat (nat_of_ascii c) in
  if (48 <=? n) && (n <=? 57) then Some (n - 48) else None.

Fixpoint readFrac (s : string) (num : Z) (den : positive) : Q :=
  match s with
  | String c rest =>
      match digitVal c with
      | Some d => readFrac rest (num * 10 + d) (den * 10)
      | None => num # den
      end
  | EmptyString => num # den
  end.

Fixpoint readInt (s : string) (acc : Z) (seen : bool) : option Q :=
  match s with
  | String c rest =>
      match digitVal c with
      | Some d => readInt rest (acc * 10 + d) true
      | None =>
          if negb seen then None
          else if Ascii.eqb c "." then Some (readFrac rest acc 1)
          else Some (inject_Z acc)
      end
  | EmptyString => if seen then Some (inject_Z acc) else None
  end.

Definition numericPart (s : string) : option Q := readInt s 0 false.

End NumberFormat.

Import NumberFormat.

(** ** Data *)

(** An entry of [manualSensorPositions]. *)
Record Anchor := mkAnchor {
  x : Z;
  y : Z;
  z : Z;
  anchorLabel : string
}.

(** The object literal built by [generateSensorsFromPositions]. *)
Record Sensor := mkSensor {
  id : Z;
  label : string;
  pos : list Z;
  temp : string;
  hum : string;
  wind : string;
  moisture : string;
  risk : string
}.

Record ManualSensorPositions := {
  m1 : list Anchor;
  m2 : list Anchor
}.

Definition manualSensorPositions : ManualSensorPositions := {|
  m1 := [ mkAnchor 12519 8663 (-2433) "North Ridge";
          mkAnchor 1500 9963 (-1000) "South Peak";
          mkAnchor 0 9463 2000 "Base Camp";
          mkAnchor (-9500) 10050 0 "Summit Point";
          mkAnchor 7000 11663 1500 "Valley Floor";
          mkAnchor (-1800) 9663 (-9000) "East Slope";
          mkAnchor 9500 9063 (-5800) "South Base" ];
  m2 := [ mkAnchor 12519 5863 (-2433) "North Ridge";
          mkAnchor 1500 6863 (-1000) "South Peak";
          mkAnchor (-4500) 7463 2000 "Base Camp";
          mkAnchor (-16500) 6550 0 "Summit Point" ]
|}.

(** ** The random source *)

Definition Rand (A : Type) : Type := nat -> A * nat.

Definition ret {A} (a : A) : Rand A := fun k => (a, k).

Definition bind {A B} (m : Rand A) (f : A -> Rand B) : Rand B :=
  fun k => let (a, k') := m k in f a k'.

Notation "v <- m ;; k" := (bind m (fun v => k))
  (at level 61, m at next level, right associativity).

(** [items.map((item, i) => f(item, i))] for an [f] that draws. *)
Fixpoint mapWithIndex {A B} (f : A -> nat -> Rand B) (i : nat) (items : list A)
  : Rand (list B) :=
  match items with
  | [] => ret []
  | item :: rest =>
      b <- f item i ;;
      bs <- mapWithIndex f (S i) rest ;;
      ret (b :: bs)
  end.

Section Synthesizer.

(** [random k] is the value of the [k]-th call of [Math.random()], a
    binary64 value of [0,1) taken as the rational it denotes. *)
Variable random : nat -> Q.

Definition mathRandom : Rand Q := fun k => (random k, S k).

(** The numeric expressions of lines 130 to 133, before formatting: a
    product and a sum, each rounded to binary64. *)
Definition tempValue (u : Q) : Q := round64 (round64 (u * 15) + 5).
Definition humValue (u : Q) : Q := round64 (round64 (u * 30) + 60).
Definition windValue (u : Q) : Q := round64 (round64 (u * 30) + 10).
Definition moistureValue (u : Q) : Q := round64 (round64 (u * 5) + 7).

(** [Math.random() > 0.7 ? "HIGH" : Math.random() > 0.4 ? "MEDIUM" : "LOW"]:
    the second draw is made only when the first test fails. *)
Definition drawRisk : Rand string :=
  u1 <- mathRandom ;;
  if Qlt_le_dec literal_0_7 u1 then ret "HIGH"
  else
    u2 <- mathRandom ;;
    if Qlt_le_dec literal_0_4 u2 then ret "MEDIUM" else ret "LOW".

(** The callback of [positions.map]; the fields are evaluated in the order
    of the object literal. *)
Definition sensorAt (mountainId : Z) (p : Anchor) (i : nat) : Rand Sensor :=
  ut <- mathRandom ;;
  uh <- mathRandom ;;
  uw <- mathRandom ;;
  um <- mathRandom ;;
  r <- drawRisk ;;
  ret {| id := roundInt64 (roundInt64 (mountainId * 100) + Z.of_nat i);
         label := anchorLabel p;
         pos := [x p; y p; z p];
         temp := toFixed (tempValue ut) 1 ++ "°C";
         hum := toFixed (humValue uh) 0 ++ "%";
         wind := toFixed (windValue uw) 0 ++ " km/h";
         moisture := toFixed (moistureValue um) 1 ++ " g/m³";
         risk := r |}.

Definition generateSensorsFromPositions (positions : list Anchor) (mountainId : Z)
  : Rand (list Sensor) :=
  mapWithIndex (sensorAt mountainId) 0 positions.

End Synthesizer.

(** ** The dashboard component *)

(** A value of the [mountains] object. *)
Record Mountain := {
  name : string;
  path : string;
  sensors : list Sensor
}.

(** The two [useState] cells of [MeghaGaahDashboard]. *)
Record AppState := {
  selectedID : string;
  activeSensor : option Sensor
}.

Definition setSelectedID (value : string) (st : AppState) : AppState :=
  {| selectedID := value; activeSensor := activeSensor st |}.

Definition setActiveSensor (a : option Sensor) (st : AppState) : AppState :=
  {| selectedID := selectedID st; activeSensor := a |}.

(** The [onChange] handler of the region picker (lines 177 to 180). *)
Definition selectRegion (value : string) (st : AppState) : AppState :=
  setActiveSensor None (setSelectedID value st).

(** [onSelect={setActiveSensor}], called as [onSelect(data)] (lines 25, 274). *)
Definition selectSensor (data : Sensor) (st : AppState) : AppState :=
  setActiveSensor (Some data) st.

(** The close button of the detail panel (line 198). *)
Definition clearSensor (st : AppState) : AppState :=
  setActiveSensor None st.

(** The [value]s of the picker's [option] elements. *)
Definition pickerOptions : list string := ["m1"; "m2"].

(** Reading [obj[key]] on an object literal: an own property, else a
    property inherited from [Object.prototype], else [undefined]. *)
Inductive Property (A : Type) : Type :=
| Own (a : A)
| Inherited
| Undefined.
Arguments Own {A} a.
Arguments Inherited {A}.
Arguments Undefined {A}.

Definition objectPrototypeKeys : list string :=
  [ "constructor"; "__defineGetter__"; "__defineSetter__"; "hasOwnProperty";
    "__lookupGetter__"; "__lookupSetter__"; "isPrototypeOf";
    "propertyIsEnumerable"; "toString"; "valueOf"; "__proto__";
    "toLocaleString" ].

Fixpoint ownProperty {A} (obj : list (string * A)) (key : string) : option A :=
  match obj with
  | [] => None
  | (k, a) :: rest => if String.eqb k key then Some a else ownProperty rest key
  end.

Definition getProperty {A} (obj : list (string * A)) (key : string) : Property A :=
  match ownProperty obj key with
  | Some a => Own a
  | None =>
      if existsb (String.eqb key) objectPrototypeKeys then Inherited else Undefined
  end.

(** What a render returns: the element tree, or the exception it threw. *)
Inductive Outcome (A : Type) : Type :=
| Rendered (a : A)
| TypeError.
Arguments Rendered {A} a.
Arguments TypeError {A}.

Record MetricRowProps := {
  rowLabel : string;
  rowValue : string
}.

(** The sensor data card (lines 190 to 258). *)
Record DetailPanel := {
  heading : string;
  sensorId : Z;
  rows : list MetricRowProps;
  badge : string;
  trend : list Q
}.

(** The props of one [SensorNode] (lines 270 to 276). *)
Record SensorNodeProps := {
  key : Z;
  position : list Z;
  data : Sensor;
  isActive : bool
}.

Record View := {
  panel : option DetailPanel;
  modelUrl : string;
  nodes : list SensorNodeProps
}.

Section Dashboard.

Variable random : nat -> Q.

(** The [mountains] object, rebuilt by every render. *)
Definition mountains : Rand (list (string * Mountain)) :=
  s1 <- generateSensorsFromPositions random (m1 manualSensorPositions) 1 ;;
  s2 <- generateSensorsFromPositions random (m2 manualSensorPositions) 2 ;;
  ret [ ("m1", {| name := "Kashmir Valley"; path := "/mountain1.glb"; sensors := s1 |});
        ("m2", {| name := "Mandi Ridge"; path := "/mountain2.glb"; sensors := s2 |}) ].

(** [[...Array(12)].map(...)]: one draw per bar. *)
Fixpoint trendBars (n : nat) : Rand (list Q) :=
  match n with
  | O => ret []
  | S n' =>
      u <- mathRandom random ;;
      hs <- trendBars n' ;;
      ret (round64 (round64 (u * 60) + 30) :: hs)
  end.

(** [{activeSensor && ( ... )}]. *)
Definition renderPanel (a : option Sensor) : Rand (option DetailPanel) :=
  match a with
  | None => ret None
  | Some s =>
      hs <- trendBars 12 ;;
      ret (Some {| heading := label s;
                   sensorId := id s;
                   rows := [ {| rowLabel := "Temperature"; rowValue := temp s |};
                             {| rowLabel := "Humidity"; rowValue := hum s |};
                             {| rowLabel := "Air Moisture"; rowValue := moisture s |};
                             {| rowLabel := "Wind Speed"; rowValue := wind s |} ];
                   badge := risk s;
                   trend := hs |})
  end.

(** [activeSensor?.id === sensor.id]. *)
Definition isActiveNode (a : option Sensor) (sensor : Sensor) : bool :=
  match a with
  | Some s => id s =? id sensor
  | None => false
  end.

Definition sensorNode (a : option Sensor) (sensor : Sensor) : SensorNodeProps :=
  {| key := id sensor;
     position := pos sensor;
     data := sensor;
     isActive := isActiveNode a sensor |}.

(** One render of the component.  [current.path] throws when [current] is
    [undefined]; on a value inherited from [Object.prototype] it is
    [undefined] and it is [current.sensors.map] that throws. *)
Definition MeghaGaahDashboard (st : AppState) : Rand (Outcome View) :=
  ms <- mountains ;;
  let current := getProperty ms (selectedID st) in
  p <- renderPanel (activeSensor st) ;;
  match current with
  | Own m =>
      ret (Rendered {| panel := p;
                       modelUrl := path m;
                       nodes := map (sensorNode (activeSensor st)) (sensors m) |})
  | Inherited => ret TypeError
  | Undefined => ret TypeError
  end.

(** The component between two events: its state, the view of the last
    render and the number of draws made so far. *)
Record World := {
  state : AppState;
  view : View;
  drawn : nat
}.

Inductive Event :=
| ChangeRegion (value : string)
| ClickSensorNode (i : nat)
| ClickClose
| Rerender.

(** The handler an event runs, if the view offers the event: the picker
    fires [onChange] for one of its options other than the shown one, a
    click needs the node, the close button needs the panel. *)
Definition handle (e : Event) (w : World) : option AppState :=
  match e with
  | ChangeRegion value =>
      if existsb (String.eqb value) pickerOptions
         && negb (String.eqb value (selectedID (state w)))
      then Some (selectRegion value (state w))
      else None
  | ClickSensorNode i =>
      match nth_error (nodes (view w)) i with
      | Some node => Some (selectSensor (data node) (state w))
      | None => None
      end
  | ClickClose =>
      match panel (view w) with
      | Some _ => Some (clearSensor (state w))
      | None => None
      end
  | Rerender => Some (state w)
  end.

Definition commit (st : AppState) (k : nat) : Outcome World :=
  match MeghaGaahDashboard st k with
  | (Rendered v, k') => Rendered {| state := st; view := v; drawn := k' |}
  | (TypeError, _) => TypeError
  end.

Definition step (e : Event) (w : World) : option (Outcome World) :=
  match handle e w with
  | Some st => Some (commit st (drawn w))
  | None => None
  end.

(** [useState('m1')], [useState(null)] and the first render. *)
Definition initialState : AppState :=
  {| selectedID := "m1"; activeSensor := None |}.

Definition mount : Outcome World := commit initialState 0.

Inductive reachable : World -> Prop :=
| reach_mount w : mount = Rendered w -> reachable w
| reach_step w e w' :
    reachable w -> step e w = Some (Rendered w') -> reachable w'.

(** The sensor list of the currently selected region, as last rendered. *)
Definition currentSensors (w : World) : list Sensor :=
  map data (nodes (view w)).

(** A sequence of events from a given world; [None] when the view does not
    offer one of them. *)
Fixpoint run (es : list Event) (w : World) : option (Outcome World) :=
  match es with
  | [] => Some (Rendered w)
  | e :: es' =>
      match step e w with
      | Some (Rendered w') => run es' w'
      | other => other
      end
  end.

Definition play (es : list Event) : option (Outcome World) :=
  match mount with
  | Rendered w => run es w
  | TypeError => Some TypeError
  end.

Definition blank : World :=
  {| state := initialState;
     view := {| panel := None; modelUrl := ""; nodes := [] |};
     drawn := 0 |}.

(** The world a sequence of events leads to from the first render. *)
Definition worldAfter (es : list Event) : World :=
  match play es with
  | Some (Rendered w) => w
  | _ => blank
  end.

End Dashboard.

(** ** The camera logger *)

Module CameraLogger.

(** [camera.position]: three binary64 coordinates. *)
Record Vector3 := {
  x : float;
  y : float;
  z : float
}.

(** One argument of a [console.log] call: a string, or an object literal
    with its fields. *)
Inductive LogArg :=
| Text (s : string)
| Fields (fs : list (string * string)).

Definition LogCall : Type := list LogArg.

(** The page and the operator's console. *)
Record Browser := {
  page : World;
  console : list LogCall
}.

Definition rule : string := "═══════════════════════════════════════".

Section Logger.

(** Number::toString, which [toFixed] falls back on for a value that is not
    finite and from 10^21 up. *)
Variable numberToString : float -> string.

(** [v.toFixed(f)] on a binary64 value: [numberToString] for NaN and the
    infinities and, after the sign, for a magnitude of 10^21 or more; else
    the digits of the multiple of 10^-f nearest to the value it denotes. *)
Definition toFixed (v : float) (f : nat) : string :=
  match valueOf v with
  | None => numberToString v
  | Some q =>
      if Qle_bool (inject_Z (10 ^ 21)) (Qabs q)
      then (if Qlt_le_dec q 0 then "-" ++ numberToString (- v)%float
            else numberToString v)
      else NumberFormat.toFixed q f
  end.

(** The listener of the controls' change event (lines 60 to 72).  The
    squares [pos.x ** 2] are the binary64 products [x * x]. *)
Definition handleChange (position : Vector3) (out : list LogCall) : list LogCall :=
  let pos := position in
  let distance :=
    PrimFloat.sqrt (x pos * x pos + y pos * y pos + z pos * z pos)%float in
  out ++ [ [Text rule];
           [Text "📷 CAMERA POSITION:";
            Fields [ ("x", toFixed (x pos) 2);
                     ("y", toFixed (y pos) 2);
                     ("z", toFixed (z pos) 2) ]];
           [Text "🔍 ZOOM DISTANCE:"; Text (toFixed distance 2)];
           [Text rule] ].

(** A change event of the camera controls, seen from the whole page. *)
Definition cameraChanged (position : Vector3) (b : Browser) : Browser :=
  {| page := page b; console := handleChange position (console b) |}.

End Logger.

(** The exact sum of the squares of the coordinates, when they are finite:
    the square of the Euclidean norm. *)
Definition normSquared (position : Vector3) : option Q :=
  match valueOf (x position), valueOf (y position), valueOf (z position) with
  | Some a, Some b, Some c => Some (a * a + b * b + c * c)%Q
  | _, _, _ => None
  end.

(** A camera position: (1024, 16, 0.125 - 2^-30). *)
Definition offAxis : Vector3 :=
  {| x := 1024%float; y := 16%float; z := (0.125 - 0x1p-30)%float |}.

End CameraLogger.

(** ** Statements about formatted metrics *)

(** The classification the specification describes, on two given draws;
    its thresholds 0.7 and 0.4 are the literals of the source. *)
Definition riskOfDraws (u1 u2 : Q) : string :=
  if Qlt_le_dec literal_0_7 u1 then "HIGH"
  else if Qlt_le_dec literal_0_4 u2 then "MEDIUM"
  else "LOW".

(** The risks of [n] sensors synthesized one after the other from draw [k]
    on, by the specification's rule: each sensor's risk reads the fifth and
    sixth draw of the sensor, and the sixth is consumed unless the risk is
    HIGH. *)
Fixpoint risksFrom (random : nat -> Q) (k n : nat) : list string :=
  match n with
  | O => []
  | S n' =>
      let r := riskOfDraws (random (4 + k)%nat) (random (5 + k)%nat) in
      r :: risksFrom random (k + (if String.eqb r "HIGH" then 5 else 6))%nat n'
  end.

(** Sample draws on which the model is compared with the kernel's binary64
    arithmetic: the two literals, the two largest values below 1, zero, the
    smallest subnormal and normal numbers, and some values in between. *)
Definition sampleDraws : list float :=
  [ 0x1.999999999999ap-2; 0x1.6666666666666p-1; 0x1.fffffffffffffp-1;
    0x1.ffffffffffffep-1; 0; 0x1p-1074; 0x1p-1022; 0x1p-1; 0x1p-53;
    0x1.999999999999ap-4; 0x1.5555555555555p-2; 0x1.23456789abcdep-1;
    0x1.fedcba9876543p-3; 0x1.0000000000001p-1; 0x1.8p-1; 0x1.ffcp-1 ]%float.

(** The model computes, from the value of a float [u], the value of the
    float [u * a + b]. *)
Definition agreesAt (a b : Z) (u : float) : bool :=
  match valueOf u, valueOf (u * of_uint63 (Uint63.of_Z a)
                            + of_uint63 (Uint63.of_Z b))%float with
  | Some q, Some r => Qeq_bool (round64 (round64 (q * inject_Z a) + inject_Z b)) r
  | _, _ => false
  end.

(** The model computes the integer of the float [m * 100 + i]. *)
Definition idAgreesAt (m i : Z) : bool :=
  match valueOf (of_uint63 (Uint63.of_Z m) * 100
                 + of_uint63 (Uint63.of_Z i))%float with
  | Some r => Qeq_bool (inject_Z (roundInt64 (roundInt64 (m * 100) + i))) r
  | None => false
  end.

(** The number at the front of a formatted metric lies in [lo, hi). *)
Definition withinHalfOpen (field : string) (lo hi : Q) : Prop :=
  exists q, numericPart field = Some q /\ (lo <= q)%Q /\ (q < hi)%Q.

(** The number at the front of a formatted metric lies in [lo, hi]. *)
Definition withinClosed (field : string) (lo hi : Q) : Prop :=
  exists q, numericPart field = Some q /\ (lo <= q)%Q /\ (q <= hi)%Q.

Definition metricsWithinClosed (s : Sensor) : Prop :=
  withinClosed (temp s) 5 20 /\ withinClosed (hum s) 60 90 /\
  withinClosed (wind s) 10 40 /\ withinClosed (moisture s) 7 12.

(** What identifies a sensor across renders: its id, label and position. *)
Definition skeleton (s : Sensor) : Z * string * list Z :=
  (id s, label s, pos s).

Definition anchorSkeletons (mountainId : Z) (positions : list Anchor)
  : list (Z * string * list Z) :=
  map (fun '(j, a) => (roundInt64 (roundInt64 (mountainId * 100) + Z.of_nat j),
                       anchorLabel a, [x a; y a; z a]))
      (combine (seq 0 (List.length positions)) positions).

Definition regionSkeletons (value : string) : list (Z * string * list Z) :=
  if String.eqb value "m1" then anchorSkeletons 1 (m1 manualSensorPositions)
  else if String.eqb value "m2" then anchorSkeletons 2 (m2 manualSensorPositions)
  else [].

(** The invariant of the selection state: a region of the picker is
    selected, the rendered sensors are those of its anchors, and the active
    sensor, if any, was synthesized for one of these anchors. *)
Definition consistent (w : World) : Prop :=
  In (selectedID (state w)) pickerOptions /\
  map skeleton (currentSensors w) = regionSkeletons (selectedID (state w)) /\
  match activeSensor (state w) with
  | Some a => In (skeleton a) (regionSkeletons (selectedID (state w)))
  | None => True
  end.

(** The active sensor, when present, is a record of the rendered sensor
    list of the selected region. *)
Definition activeBelongs (w : World) : Prop :=
  forall a, activeSensor (state w) = Some a -> In a (currentSensors w).

(** The active sensor, when present, has the id, label and position of a
    record of the rendered sensor list of the selected region. *)
Definition activeBelongsById (w : World) : Prop :=
  forall a, activeSensor (state w) = Some a ->
            exists s, In s (currentSensors w) /\
                      id s = id a /\ label s = label a /\ pos s = pos a.

(** The lookup [mountains[value]] found nothing. *)
Definition notFound (current : Property Mountain) : Prop :=
  current = Undefined.

(** A record of region m2, as synthesized when every draw is 1/2. *)
Definition strayReading : Sensor :=
  {| id := 200; label := "North Ridge"; pos := [12519; 5863; -2433];
     temp := "12.5°C"; hum := "75%"; wind := "25 km/h";
     moisture := "9.5 g/m³"; risk := "MEDIUM" |}.

(** The integers [lo, lo + 1, ..., hi]. *)
Definition zrange (lo hi : Z) : list Z :=
  map (fun i => lo + Z.of_nat i) (seq 0 (Z.to_nat (hi + 1 - lo))).

(** [numericPart] reads back [n / 10^f] from [fixedDigits n f ++ unit]. *)
Definition readsBack (f : nat) (unit : string) (n : Z) : bool :=
  match numericPart (fixedDigits n f ++ unit) with
  | Some q => Qeq_bool q (n # Z.to_pos (pow10 f))
  | None => false
  end.

(** Two sequences of draws used to run the model: a varying one,
    1/2, 1/3, 1/4, ..., and one that stays just below 1 (1023/1024, a
    binary64 value).  A draw is any rational of [0,1); the binary64 values
    of [0,1) are among them. *)
Definition harmonic : nat -> Q := fun k => 1 # Pos.of_nat (k + 2).
Definition nearOne : nat -> Q := fun _ => 1023 # 1024.

(** ** The sensor marker and the risk badge *)

(** The ring [mesh] of a marker: [ringGeometry] arguments, colour of the
    [meshBasicMaterial], its [transparent] flag and its opacity. *)
Record RingMesh := {
  ringArgs : list Z;
  ringColor : string;
  transparent : bool;
  opacity : Q
}.

(** The sphere [mesh] of a marker: [sphereGeometry] arguments and the
    [meshStandardMaterial]. *)
Record SphereMesh := {
  sphereArgs : list Q;
  color : string;
  emissive : string;
  emissiveIntensity : Z
}.

Record SensorGroup := {
  groupPosition : list Z;
  sphere : SphereMesh;
  ringMesh : option RingMesh
}.

(** [SensorNode] (lines 15 to 50): what it renders from its props and its
    [hovered] state.  The three colour expressions are written out as the
    source has them. *)
Definition SensorNode (props : SensorNodeProps) (hovered : bool) : SensorGroup :=
  let sensorSize := 300%Q in
  let ringSize := 1400 in
  {| groupPosition := position props;
     sphere :=
       {| sphereArgs := [ (if hovered then sensorSize * (13 # 10) else sensorSize)%Q;
                          32%Q; 32%Q ];
          color := if String.eqb (risk (data props)) "HIGH" then "#ef4444"
                   else if String.eqb (risk (data props)) "MEDIUM" then "#f59e0b"
                   else "#10b981";
          emissive := if String.eqb (risk (data props)) "HIGH" then "#ef4444"
                      else if String.eqb (risk (data props)) "MEDIUM" then "#f59e0b"
                      else "#10b981";
          emissiveIntensity := if isActive props then 5 else if hovered then 3 else 2 |};
     ringMesh :=
       if isActive props || hovered
       then Some {| ringArgs := [ringSize; ringSize + 100; 32];
                    ringColor :=
                      if String.eqb (risk (data props)) "HIGH" then "#ef4444"
                      else if String.eqb (risk (data props)) "MEDIUM" then "#f59e0b"
                      else "#10b981";
                    transparent := true;
                    opacity := 6 # 10 |}
       else None |}.

(** The pointer events of the sphere and what they do to [hovered]. *)
Inductive PointerEvent :=
| PointerOver
| PointerOut.

Definition pointerMoved (e : PointerEvent) (hovered : bool) : bool :=
  match e with
  | PointerOver => true
  | PointerOut => false
  end.

(** [hovered] after a sequence of pointer events, from [useState(false)]. *)
Definition hoveredAfter (es : list PointerEvent) : bool :=
  fold_left (fun h e => pointerMoved e h) es false.

(** The [className] of the risk badge of the panel (lines 230 to 236). *)
Definition badgeClassName (a : Sensor) : string :=
  "px-3 py-1 rounded-full text-xs font-black uppercase tracking-wide "
  ++ (if String.eqb (risk a) "HIGH" then "bg-red-100 text-red-700"
      else if String.eqb (risk a) "MEDIUM" then "bg-amber-100 text-amber-700"
      else "bg-emerald-100 text-emerald-700").

(** A sequence of change events of the camera controls. *)
Definition cameraChanges (numberToString : float -> string)
           (positions : list CameraLogger.Vector3) (b : CameraLogger.Browser)
  : CameraLogger.Browser :=
  fold_left (fun b p => CameraLogger.cameraChanged numberToString p b) positions b.

(** A sensor as the synthesizer makes them: metrics in range, a known risk. *)
Definition wellFormed (s : Sensor) : Prop :=
  metricsWithinClosed s /\
  (risk s = "LOW" \/ risk s = "MEDIUM" \/ risk s = "HIGH").

(** The draws one synthesized sensor costs: four metrics, one risk draw,
    and a second risk draw unless the first gave HIGH. *)
Definition drawsOf (s : Sensor) : nat :=
  if String.eqb (risk s) "HIGH" then 5%nat else 6%nat.

(** * Proofs *)

(** ** Binary64 rounding *)

Section Binary64Facts.

Local Open Scope Q_scope.

Lemma pow2_pos (p : Z) : 0 < pow2 p.
Proof.
  unfold pow2. destruct (0 <=? p)%Z eqn:E.
  - apply Z.leb_le in E. change 0 with (inject_Z 0). rewrite <- Zlt_Qlt.
    apply Z.pow_pos_nonneg; lia.
  - reflexivity.
Qed.

Lemma pow2_nonneg_exponent (p : Z) : (0 <= p)%Z -> pow2 p = inject_Z (2 ^ p).
Proof. intros H. unfold pow2. apply Z.leb_le in H. now rewrite H. Qed.

(** 2^p * 2^-p = 1 for p <= 0. *)
Lemma pow2_scale (p : Z) : (p <= 0)%Z -> pow2 p * inject_Z (2 ^ (- p)) == 1.
Proof.
  intros Hp. unfold pow2. destruct (0 <=? p)%Z eqn:E.
  - apply Z.leb_le in E. assert (p = 0%Z) by lia. subst p. reflexivity.
  - assert (H : (0 < 2 ^ (- p))%Z) by (apply Z.pow_pos_nonneg; lia).
    unfold Qeq, Qmult, inject_Z. cbn [Qnum Qden].
    rewrite Pos2Z.inj_mul, Z2Pos.id by exact H. ring.
Qed.

Lemma nearestEven_le (v : Q) (k : Z) : v <= inject_Z k -> (nearestEven v <= k)%Z.
Proof.
  intros Hv. unfold nearestEven.
  pose proof (Qfloor_le v) as Hdown. pose proof (Qlt_floor v) as Hup.
  rewrite inject_Z_plus in Hup. change (inject_Z 1) with 1 in Hup.
  assert (Hf : (Qfloor v <= k)%Z).
  { rewrite Zle_Qle. lra. }
  destruct (Z.eq_dec (Qfloor v) k) as [E|N].
  - assert (Hlt : (v - inject_Z (Qfloor v) ?= 1 # 2) = Lt).
    { rewrite <- Qlt_alt. rewrite E in *. lra. }
    rewrite Hlt. lia.
  - destruct (v - inject_Z (Qfloor v) ?= 1 # 2); [destruct (Z.even (Qfloor v))| |]; lia.
Qed.

Lemma nearestEven_ge (v : Q) (k : Z) : inject_Z k <= v -> (k <= nearestEven v)%Z.
Proof.
  intros Hv. unfold nearestEven.
  pose proof (Qlt_floor v) as Hup.
  assert (Hf : (k < Qfloor v + 1)%Z).
  { rewrite Zlt_Qlt. lra. }
  destruct (v - inject_Z (Qfloor v) ?= 1 # 2); [destruct (Z.even (Qfloor v))| |]; lia.
Qed.

(** A positive rational below 2^53 lies in a binade of at most 52. *)
Lemma binade_small (a : Q) :
  0 < a -> a < inject_Z (2 ^ 53) -> (binade a <= 52)%Z.
Proof.
  intros Hpos Hlt. unfold binade.
  destruct a as [n d]. cbn [Qnum Qden].
  assert (Hn : (0 < n)%Z).
  { unfold Qlt in Hpos. cbn in Hpos. lia. }
  assert (Hnd : (n < 2 ^ 53 * Z.pos d)%Z).
  { unfold Qlt in Hlt. cbn [Qnum Qden inject_Z] in Hlt. lia. }
  set (c := (Z.log2 n - Z.log2 (Z.pos d))%Z).
  destruct (Qle_bool (pow2 c) (n # d)) eqn:E.
  - apply Qle_bool_iff in E.
    destruct (Z_le_gt_dec c 52) as [Hc|Hc]; [exact Hc|exfalso].
    rewrite pow2_nonneg_exponent in E by lia.
    assert (H : inject_Z (2 ^ 53) <= inject_Z (2 ^ c)).
    { rewrite <- Zle_Qle. apply Z.pow_le_mono_r; lia. }
    lra.
  - destruct (Z_le_gt_dec c 53) as [Hc|Hc]; [lia|exfalso].
    pose proof (Z.log2_spec n Hn) as [Hlo _].
    pose proof (Z.log2_spec (Z.pos d) (Pos2Z.is_pos d)) as [_ Hhi].
    pose proof (Z.log2_nonneg (Z.pos d)) as Hld.
    assert (Hpow : (2 ^ 53 * 2 ^ Z.succ (Z.log2 (Z.pos d)) <= 2 ^ Z.log2 n)%Z).
    { rewrite <- Z.pow_add_r by lia. apply Z.pow_le_mono_r; lia. }
    nia.
Qed.

Lemma ulpExponent_nonpos (a : Q) :
  0 < a -> a < inject_Z (2 ^ 53) -> (ulpExponent a <= 0)%Z.
Proof.
  intros Hpos Hlt. unfold ulpExponent.
  pose proof (binade_small a Hpos Hlt). lia.
Qed.

(** Rounding keeps a value between two integers between them. *)
Lemma round64_between (v : Q) (lo hi : Z) :
  (0 <= lo)%Z -> (hi < 2 ^ 53)%Z ->
  inject_Z lo <= v -> v <= inject_Z hi ->
  inject_Z lo <= round64 v /\ round64 v <= inject_Z hi.
Proof.
  intros Hlo Hhi Hl Hh. unfold round64.
  destruct (Qeq_bool v 0) eqn:E0.
  - apply Qeq_bool_iff in E0. split; lra.
  - assert (Hne : ~ v == 0).
    { intros H. apply Qeq_bool_iff in H. congruence. }
    assert (H0 : 0 <= inject_Z lo).
    { change 0 with (inject_Z 0). now rewrite <- Zle_Qle. }
    assert (Hpos : 0 < v).
    { destruct (Qlt_le_dec 0 v) as [H|H]; [exact H|]. exfalso. apply Hne. lra. }
    destruct (Qlt_le_dec v 0) as [Hneg|_]; [lra|].
    assert (Ha : Qabs v = v).
    { destruct v as [n d]. unfold Qabs. f_equal. apply Z.abs_eq.
      unfold Qlt in Hpos. cbn in Hpos. lia. }
    rewrite Ha.
    assert (Hbig : v < inject_Z (2 ^ 53)).
    { apply Qle_lt_trans with (inject_Z hi); [exact Hh|]. now rewrite <- Zlt_Qlt. }
    pose proof (ulpExponent_nonpos v Hpos Hbig) as Hp.
    set (p := ulpExponent v) in *.
    rewrite (pow2_nonneg_exponent (- p)) by lia.
    assert (HS : (0 < 2 ^ (- p))%Z) by (apply Z.pow_pos_nonneg; lia).
    assert (HSQ : 0 < inject_Z (2 ^ (- p))).
    { change 0 with (inject_Z 0). now rewrite <- Zlt_Qlt. }
    pose proof (pow2_scale p Hp) as Hscale.
    pose proof (pow2_pos p) as Hpp.
    set (S := inject_Z (2 ^ (- p))) in *.
    assert (Hm1 : (lo * 2 ^ (- p) <= nearestEven (v * S))%Z).
    { apply nearestEven_ge. rewrite inject_Z_mult. fold S.
      apply Qmult_le_compat_r; [exact Hl | lra]. }
    assert (Hm2 : (nearestEven (v * S) <= hi * 2 ^ (- p))%Z).
    { apply nearestEven_le. rewrite inject_Z_mult. fold S.
      apply Qmult_le_compat_r; [exact Hh | lra]. }
    set (m := nearestEven (v * S)) in *.
    rewrite Zle_Qle, inject_Z_mult in Hm1, Hm2. fold S in Hm1, Hm2.
    assert (E1 : inject_Z lo == inject_Z lo * S * pow2 p).
    { rewrite <- Qmult_assoc, (Qmult_comm S), Hscale. ring. }
    assert (E2 : inject_Z hi == inject_Z hi * S * pow2 p).
    { rewrite <- Qmult_assoc, (Qmult_comm S), Hscale. ring. }
    split.
    + rewrite E1. apply Qmult_le_compat_r; [exact Hm1 | lra].
    + rewrite E2. apply Qmult_le_compat_r; [exact Hm2 | lra].
Qed.

Lemma roundInt64_exact (n : Z) : (Z.abs n <= 2 ^ 53)%Z -> roundInt64 n = n.
Proof.
  intros H. unfold roundInt64. apply Z.leb_le in H. now rewrite H.
Qed.

End Binary64Facts.

(** On the sample draws the rounded expressions of the model are the values
    the kernel's binary64 [*] and [+] compute, for the four metrics and the
    trend bars; the literals are the floats [0.7] and [0.4]; and the ids of
    the model are those of binary64, within and beyond 2^53. *)
Lemma model_agrees_with_binary64 :
  forallb (agreesAt 15 5) sampleDraws = true /\
  forallb (agreesAt 30 60) sampleDraws = true /\
  forallb (agreesAt 30 10) sampleDraws = true /\
  forallb (agreesAt 5 7) sampleDraws = true /\
  forallb (agreesAt 60 30) sampleDraws = true /\
  valueOf 0x1.6666666666666p-1%float = Some literal_0_7 /\
  valueOf 0x1.999999999999ap-2%float = Some literal_0_4 /\
  forallb (fun m => forallb (idAgreesAt m) [0; 1; 2; 3; 4; 5; 6]%Z)
          [1; 2; 90071992547409; 90071992547410; 90071992547411;
           180143985094820; 4503599627370496]%Z = true.
Proof. repeat split; vm_compute; reflexivity. Qed.

(** ** The random monad and [map] with index *)

Section MapWithIndex.

Context {A B : Type}.
Variable f : A -> nat -> Rand B.

Lemma mapWithIndex_length (items : list A) :
  forall i k, List.length (fst (mapWithIndex f i items k)) = List.length items.
Proof.
  induction items as [|a rest IH]; intros i k; simpl; [reflexivity|].
  unfold bind. destruct (f a i k) as [b k1].
  specialize (IH (S i) k1).
  destruct (mapWithIndex f (S i) rest k1) as [bs k2]. simpl in *. now rewrite IH.
Qed.

(** The [j]-th output is [f] of the [j]-th item and of index [i + j], run
    at some state of the random source. *)
Lemma mapWithIndex_nth (items : list A) :
  forall i k j a,
    nth_error items j = Some a ->
    exists kj, nth_error (fst (mapWithIndex f i items k)) j
               = Some (fst (f a (i + j)%nat kj)).
Proof.
  induction items as [|a0 rest IH]; intros i k j a Hj.
  - destruct j; discriminate.
  - simpl. unfold bind. destruct (f a0 i k) as [b k1] eqn:E.
    specialize (IH (S i) k1).
    destruct (mapWithIndex f (S i) rest k1) as [bs k2]. simpl in *.
    destruct j as [|j]; simpl in *.
    + injection Hj as <-. exists k. rewrite Nat.add_0_r, E. reflexivity.
    + destruct (IH j a Hj) as [kj Hk]. exists kj.
      now rewrite Nat.add_succ_r.
Qed.

Lemma mapWithIndex_Forall (P : B -> Prop) :
  (forall a i k, P (fst (f a i k))) ->
  forall items i k, Forall P (fst (mapWithIndex f i items k)).
Proof.
  intros HP items. induction items as [|a rest IH]; intros i k; simpl.
  - constructor.
  - unfold bind. pose proof (HP a i k) as Ha.
    destruct (f a i k) as [b k1].
    specialize (IH (S i) k1).
    destruct (mapWithIndex f (S i) rest k1) as [bs k2]. simpl in *.
    constructor; assumption.
Qed.

(** A projection of the outputs that does not depend on the draws is a
    plain [map] with index of the items. *)
Lemma mapWithIndex_project {C} (g : B -> C) (h : A -> nat -> C) :
  (forall a i k, g (fst (f a i k)) = h a i) ->
  forall items i k,
    map g (fst (mapWithIndex f i items k))
    = map (fun '(j, a) => h a j) (combine (seq i (List.length items)) items).
Proof.
  intros Hg items. induction items as [|a rest IH]; intros i k; simpl.
  - reflexivity.
  - unfold bind. pose proof (Hg a i k) as Ha.
    destruct (f a i k) as [b k1].
    specialize (IH (S i) k1).
    destruct (mapWithIndex f (S i) rest k1) as [bs k2]. simpl in *.
    now rewrite Ha, IH.
Qed.

End MapWithIndex.

(** ** The synthesizer *)

Section SynthesizerFacts.

Variable random : nat -> Q.

Ltac run_sensorAt :=
  unfold sensorAt, drawRisk, bind, mathRandom, ret;
  repeat match goal with
         | |- context [Qlt_le_dec ?a ?b] => destruct (Qlt_le_dec a b)
         end;
  cbn.

Lemma sensorAt_id mountainId p i k :
  id (fst (sensorAt random mountainId p i k))
  = roundInt64 (roundInt64 (mountainId * 100) + Z.of_nat i).
Proof. run_sensorAt; reflexivity. Qed.

Lemma sensorAt_label mountainId p i k :
  label (fst (sensorAt random mountainId p i k)) = anchorLabel p.
Proof. run_sensorAt; reflexivity. Qed.

Lemma sensorAt_pos mountainId p i k :
  pos (fst (sensorAt random mountainId p i k)) = [x p; y p; z p].
Proof. run_sensorAt; reflexivity. Qed.

Lemma sensorAt_risk mountainId p i k :
  risk (fst (sensorAt random mountainId p i k))
  = riskOfDraws (random (4 + k)) (random (5 + k)).
Proof. unfold riskOfDraws. cbn [Nat.add]. run_sensorAt; reflexivity. Qed.

Lemma drawRisk_run k :
  drawRisk random k
  = (riskOfDraws (random k) (random (S k)),
     if Qlt_le_dec literal_0_7 (random k) then S k else S (S k)).
Proof.
  unfold drawRisk, riskOfDraws, bind, mathRandom, ret.
  destruct (Qlt_le_dec literal_0_7 (random k)); [reflexivity|].
  destruct (Qlt_le_dec literal_0_4 (random (S k))); reflexivity.
Qed.

Lemma riskOfDraws_cases u1 u2 :
  riskOfDraws u1 u2 = "LOW" \/ riskOfDraws u1 u2 = "MEDIUM"
  \/ riskOfDraws u1 u2 = "HIGH".
Proof.
  unfold riskOfDraws.
  destruct (Qlt_le_dec literal_0_7 u1); [now right; right|].
  destruct (Qlt_le_dec literal_0_4 u2); [now right; left|now left].
Qed.

Lemma combine_seq_map {A C} (h : nat -> C) (items : list A) :
  forall i,
    map (fun '(j, _) => h j) (combine (seq i (List.length items)) items)
    = map h (seq i (List.length items)).
Proof.
  induction items as [|a rest IH]; intros i; simpl; [reflexivity|].
  now rewrite IH.
Qed.

Lemma generated_ids positions mountainId k :
  map id (fst (generateSensorsFromPositions random positions mountainId k))
  = map (fun j => roundInt64 (roundInt64 (mountainId * 100) + Z.of_nat j))
        (seq 0 (List.length positions)).
Proof.
  unfold generateSensorsFromPositions.
  rewrite (mapWithIndex_project (sensorAt random mountainId) id
             (fun _ j => roundInt64 (roundInt64 (mountainId * 100) + Z.of_nat j))).
  - apply (combine_seq_map
             (fun j => roundInt64 (roundInt64 (mountainId * 100) + Z.of_nat j))).
  - intros a i k'. apply sensorAt_id.
Qed.

Lemma generated_labels positions mountainId k :
  map label (fst (generateSensorsFromPositions random positions mountainId k))
  = map anchorLabel positions.
Proof.
  unfold generateSensorsFromPositions.
  rewrite (mapWithIndex_project (sensorAt random mountainId) label
             (fun a _ => anchorLabel a)).
  - generalize 0%nat. induction positions as [|a rest IH]; intros i; simpl;
      [reflexivity | now rewrite IH].
  - intros a i k'. apply sensorAt_label.
Qed.

Lemma generated_pos positions mountainId k :
  map pos (fst (generateSensorsFromPositions random positions mountainId k))
  = map (fun a => [x a; y a; z a]) positions.
Proof.
  unfold generateSensorsFromPositions.
  rewrite (mapWithIndex_project (sensorAt random mountainId) pos
             (fun a _ => [x a; y a; z a])).
  - generalize 0%nat. induction positions as [|a rest IH]; intros i; simpl;
      [reflexivity | now rewrite IH].
  - intros a i k'. apply sensorAt_pos.
Qed.

Lemma generated_nth positions mountainId k i a :
  nth_error positions i = Some a ->
  exists s,
    nth_error (fst (generateSensorsFromPositions random positions mountainId k)) i
    = Some s /\
    id s = roundInt64 (roundInt64 (mountainId * 100) + Z.of_nat i) /\
    label s = anchorLabel a /\
    pos s = [x a; y a; z a].
Proof.
  intros Hi. unfold generateSensorsFromPositions.
  destruct (mapWithIndex_nth (sensorAt random mountainId) positions 0 k i a Hi)
    as [kj Hk].
  eexists. split; [exact Hk|]. cbn [Nat.add].
  repeat split; [apply sensorAt_id | apply sensorAt_label | apply sensorAt_pos].
Qed.

Lemma generated_ids_exact positions mountainId k :
  Z.abs (mountainId * 100) + Z.of_nat (List.length positions) <= 2 ^ 53 ->
  map id (fst (generateSensorsFromPositions random positions mountainId k))
  = map (fun j => mountainId * 100 + Z.of_nat j) (seq 0 (List.length positions)).
Proof.
  intros Hb. rewrite generated_ids. apply map_ext_in.
  intros j Hj. apply in_seq in Hj.
  rewrite (roundInt64_exact (mountainId * 100)) by lia.
  apply roundInt64_exact. lia.
Qed.


End SynthesizerFacts.



(** ** Formatting and the ranges of the metrics *)

Section Formatting.

Local Open Scope Q_scope.

Lemma toFixed_nonneg (v : Q) (f : nat) :
  0 <= v ->
  toFixed v f = fixedDigits (nearestInt (v * inject_Z (pow10 f))) f.
Proof.
  intros Hv. unfold toFixed.
  destruct (Qlt_le_dec v 0) as [Hneg|_]; [|reflexivity].
  exfalso. exact (Qlt_not_le _ _ Hneg Hv).
Qed.

(** Rounding to the nearest integer keeps a value of [lo, hi] within the
    integers lo..hi; hi itself is reached from hi - 1/2 on. *)
Lemma nearestInt_bounds (v : Q) (lo hi : Z) :
  inject_Z lo <= v -> v <= inject_Z hi ->
  (lo <= nearestInt v <= hi)%Z.
Proof.
  intros Hlo Hhi. unfold nearestInt.
  pose proof (Qfloor_le (v + (1 # 2))) as Hdown.
  pose proof (Qlt_floor (v + (1 # 2))) as Hup.
  split.
  - assert (H : inject_Z lo < inject_Z (Qfloor (v + (1 # 2)) + 1)) by lra.
    rewrite <- Zlt_Qlt in H. lia.
  - assert (H : inject_Z (Qfloor (v + (1 # 2))) < inject_Z (hi + 1)).
    { rewrite inject_Z_plus. change (inject_Z 1) with 1. lra. }
    rewrite <- Zlt_Qlt in H. lia.
Qed.

Lemma zrange_In (lo hi n : Z) :
  (lo <= n <= hi)%Z -> In n (zrange lo hi).
Proof.
  intros Hn. unfold zrange. apply in_map_iff.
  exists (Z.to_nat (n - lo)). split; [lia|].
  apply in_seq. lia.
Qed.

Lemma readsBack_sound (f : nat) (unit : string) (lo hi n : Z) :
  forallb (readsBack f unit) (zrange lo hi) = true ->
  (lo <= n <= hi)%Z ->
  exists q, numericPart (fixedDigits n f ++ unit) = Some q /\
            q == n # Z.to_pos (pow10 f).
Proof.
  intros Hall Hn. rewrite forallb_forall in Hall.
  specialize (Hall n (zrange_In lo hi n Hn)). unfold readsBack in Hall.
  destruct (numericPart (fixedDigits n f ++ unit)) as [q|]; [|discriminate].
  exists q. split; [reflexivity|]. now apply Qeq_bool_eq.
Qed.

(** A product [u * a] and a sum with [b], each rounded, of a draw of [0,1)
    stay between [b] and [a + b]. *)
Lemma scaled_draw_range (u : Q) (a b : Z) :
  (0 <= a)%Z -> (0 <= b)%Z -> (a + b < 2 ^ 53)%Z ->
  0 <= u < 1 ->
  inject_Z b <= round64 (round64 (u * inject_Z a) + inject_Z b) /\
  round64 (round64 (u * inject_Z a) + inject_Z b) <= inject_Z (a + b).
Proof.
  intros Ha Hb Hab [Hu0 Hu1].
  assert (HaQ : 0 <= inject_Z a).
  { change 0 with (inject_Z 0). now rewrite <- Zle_Qle. }
  destruct (round64_between (u * inject_Z a) 0 a) as [H1 H2]; [lia | lia | | |].
  - change (inject_Z 0) with 0. now apply Qmult_le_0_compat.
  - rewrite <- (Qmult_1_l (inject_Z a)) at 2.
    apply Qmult_le_compat_r; [lra | exact HaQ].
  - change (inject_Z 0) with 0 in H1.
    apply round64_between; [exact Hb | exact Hab | lra |].
    rewrite inject_Z_plus. lra.
Qed.

Lemma tempValue_range u : 0 <= u < 1 -> 5 <= tempValue u /\ tempValue u <= 20.
Proof. intros Hu. now apply (scaled_draw_range u 15 5). Qed.

Lemma humValue_range u : 0 <= u < 1 -> 60 <= humValue u /\ humValue u <= 90.
Proof. intros Hu. now apply (scaled_draw_range u 30 60). Qed.

Lemma windValue_range u : 0 <= u < 1 -> 10 <= windValue u /\ windValue u <= 40.
Proof. intros Hu. now apply (scaled_draw_range u 30 10). Qed.

Lemma moistureValue_range u : 0 <= u < 1 -> 7 <= moistureValue u /\ moistureValue u <= 12.
Proof. intros Hu. now apply (scaled_draw_range u 5 7). Qed.

(** A value of [lo, hi] printed with [f] decimals and a unit reads back as
    a number of [lo, hi], given that the printed integers lo*10^f..hi*10^f
    read back (a finite check). *)
Lemma formatted_within (v : Q) (f : nat) (unit : string) (lo hi : Z) :
  forallb (readsBack f unit) (zrange (lo * pow10 f) (hi * pow10 f)) = true ->
  (0 <= lo)%Z ->
  inject_Z lo <= v -> v <= inject_Z hi ->
  withinClosed (toFixed v f ++ unit) (inject_Z lo) (inject_Z hi).
Proof.
  intros Hall Hpos Hlo Hhi.
  assert (Hp : (0 < pow10 f)%Z) by (unfold pow10; apply Z.pow_pos_nonneg; lia).
  assert (Hv : 0 <= v).
  { apply Qle_trans with (inject_Z lo); [|exact Hlo].
    change 0 with (inject_Z 0). now rewrite <- Zle_Qle. }
  rewrite (toFixed_nonneg v f Hv).
  assert (HpQ : 0 < inject_Z (pow10 f)).
  { change 0 with (inject_Z 0). now rewrite <- Zlt_Qlt. }
  assert (Hn : (lo * pow10 f <= nearestInt (v * inject_Z (pow10 f))
                <= hi * pow10 f)%Z).
  { apply nearestInt_bounds; rewrite inject_Z_mult.
    - apply Qmult_le_compat_r; [exact Hlo | now apply Qlt_le_weak].
    - apply Qmult_le_compat_r; [exact Hhi | now apply Qlt_le_weak]. }
  destruct (readsBack_sound f unit _ _ _ Hall Hn) as [q [Hq Heq]].
  exists q. split; [exact Hq|].
  set (n := nearestInt (v * inject_Z (pow10 f))) in *.
  rewrite Heq. unfold Qle. cbn [Qnum Qden inject_Z].
  rewrite Z2Pos.id by exact Hp. lia.
Qed.

Variable random : nat -> Q.
Hypothesis random_range : forall k, 0 <= random k < 1.

Lemma sensorAt_metrics mountainId p i k :
  metricsWithinClosed (fst (sensorAt random mountainId p i k)).
Proof.
  pose proof (tempValue_range _ (random_range k)) as Ht.
  pose proof (humValue_range _ (random_range (S k))) as Hh.
  pose proof (windValue_range _ (random_range (S (S k)))) as Hw.
  pose proof (moistureValue_range _ (random_range (S (S (S k))))) as Hm.
  assert (E : forall s s',
             temp s = temp s' -> hum s = hum s' -> wind s = wind s' ->
             moisture s = moisture s' ->
             metricsWithinClosed s' -> metricsWithinClosed s).
  { intros s s' E1 E2 E3 E4. unfold metricsWithinClosed.
    now rewrite E1, E2, E3, E4. }
  apply (E _ {| id := 0; label := ""; pos := [];
                temp := toFixed (tempValue (random k)) 1 ++ "°C";
                hum := toFixed (humValue (random (S k))) 0 ++ "%";
                wind := toFixed (windValue (random (S (S k)))) 0 ++ " km/h";
                moisture := toFixed (moistureValue (random (S (S (S k))))) 1
                            ++ " g/m³";
                risk := "" |}).
  1-4: unfold sensorAt, drawRisk, bind, mathRandom, ret;
    repeat match goal with
           | |- context [Qlt_le_dec ?a ?b] => destruct (Qlt_le_dec a b)
           end; reflexivity.
  unfold metricsWithinClosed. cbn [temp hum wind moisture].
  repeat split.
  - apply (formatted_within _ 1 "°C" 5 20);
      [vm_compute; reflexivity | lia | apply Ht | apply Ht].
  - apply (formatted_within _ 0 "%" 60 90);
      [vm_compute; reflexivity | lia | apply Hh | apply Hh].
  - apply (formatted_within _ 0 " km/h" 10 40);
      [vm_compute; reflexivity | lia | apply Hw | apply Hw].
  - apply (formatted_within _ 1 " g/m³" 7 12);
      [vm_compute; reflexivity | lia | apply Hm | apply Hm].
Qed.

End Formatting.

Lemma harmonic_range : forall k, (0 <= harmonic k < 1)%Q.
Proof.
  intros k. unfold harmonic, Qle, Qlt. cbn [Qnum Qden]. lia.
Qed.

Lemma nearOne_range : forall k, (0 <= nearOne k < 1)%Q.
Proof.
  intros k. unfold nearOne, Qle, Qlt. cbn [Qnum Qden]. lia.
Qed.

(** C5 (as amended): for draws in [0,1) the number printed in each metric
    of every synthesized sensor lies in the closed range of the metric:
    temperature in [5,20], humidity in [60,90], wind speed in [10,40], air
    moisture in [7,12]. *)
Theorem metrics_within_closed_ranges (random : nat -> Q) positions mountainId k :
  (forall j, 0 <= random j < 1)%Q ->
  Forall metricsWithinClosed
         (fst (generateSensorsFromPositions random positions mountainId k)).
Proof.
  intros Hr. unfold generateSensorsFromPositions. apply mapWithIndex_Forall.
  intros a i k'. now apply sensorAt_metrics.
Qed.

Lemma metrics_within_closed_ranges_witness :
  (forall j, 0 <= harmonic j < 1)%Q /\
  Forall metricsWithinClosed
         (fst (generateSensorsFromPositions harmonic (m1 manualSensorPositions) 1 0%nat)).
Proof.
  split.
  - exact harmonic_range.
  - apply (metrics_within_closed_ranges harmonic (m1 manualSensorPositions) 1 0%nat).
    exact harmonic_range.
Defined.

Lemma not_withinHalfOpen (field : string) (lo hi q : Q) :
  numericPart field = Some q -> (hi <= q)%Q -> ~ withinHalfOpen field lo hi.
Proof.
  intros Hq Hhi [q' [Hq' [_ Hlt]]].
  rewrite Hq in Hq'. injection Hq' as <-.
  exact (Qlt_not_le _ _ Hlt Hhi).
Qed.

(** C5 as stated fails: with every draw equal to 1023/1024, which is in
    [0,1), the first sensor of region m1 reads 20.0°C, 90%, 40 km/h and
    12.0 g/m³: each number is the excluded upper end of its range. *)
Lemma metrics_half_open_fails :
  (forall j, 0 <= nearOne j < 1)%Q /\
  exists s,
    nth_error (fst (generateSensorsFromPositions nearOne (m1 manualSensorPositions) 1 0%nat)) 0
    = Some s /\
    temp s = "20.0°C" /\ hum s = "90%" /\
    wind s = "40 km/h" /\ moisture s = "12.0 g/m³" /\
    ~ withinHalfOpen (temp s) 5 20 /\ ~ withinHalfOpen (hum s) 60 90 /\
    ~ withinHalfOpen (wind s) 10 40 /\ ~ withinHalfOpen (moisture s) 7 12.
Proof.
  split; [exact nearOne_range|].
  eexists. split; [vm_compute; reflexivity|].
  cbn [temp hum wind moisture].
  repeat split.
  - apply (not_withinHalfOpen _ _ _ (200 # 10)); [reflexivity | discriminate].
  - apply (not_withinHalfOpen _ _ _ 90); [reflexivity | discriminate].
  - apply (not_withinHalfOpen _ _ _ 40); [reflexivity | discriminate].
  - apply (not_withinHalfOpen _ _ _ (120 # 10)); [reflexivity | discriminate].
Qed.

(** ** Renders and the selection state *)

Section DashboardFacts.

Variable random : nat -> Q.

Lemma generated_skeletons positions mountainId k :
  map skeleton (fst (generateSensorsFromPositions random positions mountainId k))
  = anchorSkeletons mountainId positions.
Proof.
  unfold generateSensorsFromPositions, anchorSkeletons.
  apply (mapWithIndex_project (sensorAt random mountainId) skeleton
           (fun a j => (roundInt64 (roundInt64 (mountainId * 100) + Z.of_nat j),
                        anchorLabel a, [x a; y a; z a]))).
  intros a i k'. unfold skeleton.
  now rewrite sensorAt_id, sensorAt_label, sensorAt_pos.
Qed.

Lemma nodes_data a sensors : map data (map (sensorNode a) sensors) = sensors.
Proof.
  induction sensors as [|s rest IH]; simpl; [reflexivity | now rewrite IH].
Qed.

(** A render for region m1 shows the sensors synthesized first. *)
Lemma dashboard_m1 st k :
  selectedID st = "m1" ->
  exists p k',
    MeghaGaahDashboard random st k
    = (Rendered
         {| panel := p;
            modelUrl := "/mountain1.glb";
            nodes := map (sensorNode (activeSensor st))
                         (fst (generateSensorsFromPositions
                                 random (m1 manualSensorPositions) 1 k)) |},
       k') /\
    p = fst (renderPanel random (activeSensor st)
               (snd (mountains random k))).
Proof.
  intros Hsel. unfold MeghaGaahDashboard, mountains, bind, ret.
  destruct (generateSensorsFromPositions random (m1 manualSensorPositions) 1 k)
    as [s1 k1].
  destruct (generateSensorsFromPositions random (m2 manualSensorPositions) 2 k1)
    as [s2 k2].
  rewrite Hsel. cbn [snd fst].
  destruct (renderPanel random (activeSensor st) k2) as [p k3].
  cbn. eauto.
Qed.

(** A render for region m2 shows the sensors synthesized second, after the
    draws spent on region m1. *)
Lemma dashboard_m2 st k :
  selectedID st = "m2" ->
  exists p k',
    MeghaGaahDashboard random st k
    = (Rendered
         {| panel := p;
            modelUrl := "/mountain2.glb";
            nodes := map (sensorNode (activeSensor st))
                         (fst (generateSensorsFromPositions
                                 random (m2 manualSensorPositions) 2
                                 (snd (generateSensorsFromPositions
                                         random (m1 manualSensorPositions) 1 k)))) |},
       k') /\
    p = fst (renderPanel random (activeSensor st)
               (snd (mountains random k))).
Proof.
  intros Hsel. unfold MeghaGaahDashboard, mountains, bind, ret.
  destruct (generateSensorsFromPositions random (m1 manualSensorPositions) 1 k)
    as [s1 k1].
  cbn [snd fst].
  destruct (generateSensorsFromPositions random (m2 manualSensorPositions) 2 k1)
    as [s2 k2].
  rewrite Hsel. cbn [snd fst].
  destruct (renderPanel random (activeSensor st) k2) as [p k3].
  cbn. eauto.
Qed.

Lemma getProperty_mountains_unknown (a b : Mountain) value :
  value <> "m1" -> value <> "m2" ->
  getProperty [("m1", a); ("m2", b)] value = Inherited \/
  getProperty [("m1", a); ("m2", b)] value = Undefined.
Proof.
  intros H1 H2. unfold getProperty, ownProperty.
  destruct (String.eqb_spec "m1" value) as [E|_]; [now subst|].
  destruct (String.eqb_spec "m2" value) as [E|_]; [now subst|].
  destruct (existsb (String.eqb value) objectPrototypeKeys); auto.
Qed.

(** A render for any other id throws. *)
Lemma dashboard_unknown st k :
  selectedID st <> "m1" -> selectedID st <> "m2" ->
  fst (MeghaGaahDashboard random st k) = TypeError.
Proof.
  intros H1 H2. unfold MeghaGaahDashboard, mountains, bind, ret.
  destruct (generateSensorsFromPositions random (m1 manualSensorPositions) 1 k)
    as [s1 k1].
  destruct (generateSensorsFromPositions random (m2 manualSensorPositions) 2 k1)
    as [s2 k2].
  destruct (renderPanel random (activeSensor st) k2) as [p k3].
  match goal with
  | |- context [getProperty [("m1", ?a); ("m2", ?b)] _] =>
      destruct (getProperty_mountains_unknown a b (selectedID st) H1 H2) as [E|E];
      rewrite E
  end; reflexivity.
Qed.

Lemma pickerOptions_In value :
  In value pickerOptions <-> value = "m1" \/ value = "m2".
Proof.
  unfold pickerOptions. simpl. intuition congruence.
Qed.

(** Committing a state that selects a region of the picker renders, and the
    world it gives is consistent if the active sensor is one of the region. *)
Lemma commit_consistent st k :
  In (selectedID st) pickerOptions ->
  match activeSensor st with
  | Some a => In (skeleton a) (regionSkeletons (selectedID st))
  | None => True
  end ->
  exists w, commit random st k = Rendered w /\ state w = st /\ consistent w.
Proof.
  intros Hsel Hact. unfold commit.
  apply pickerOptions_In in Hsel as Hcases.
  destruct Hcases as [E|E];
    [destruct (dashboard_m1 st k E) as [p [k' [Hrun _]]]
    |destruct (dashboard_m2 st k E) as [p [k' [Hrun _]]]];
    rewrite Hrun; eexists; (split; [reflexivity|]); (split; [reflexivity|]);
    unfold consistent, currentSensors; cbn [state view nodes];
    (split; [exact Hsel|]); (split; [|exact Hact]);
    rewrite nodes_data, generated_skeletons, E; reflexivity.
Qed.

Lemma handle_consistent e w st :
  consistent w -> handle e w = Some st ->
  In (selectedID st) pickerOptions /\
  match activeSensor st with
  | Some a => In (skeleton a) (regionSkeletons (selectedID st))
  | None => True
  end.
Proof.
  intros [Hsel [Hview Hact]] He. destruct e as [value|i| |]; cbn [handle] in He.
  - destruct (existsb (String.eqb value) pickerOptions) eqn:Hopt; [|discriminate].
    destruct (negb (String.eqb value (selectedID (state w)))); [|discriminate].
    injection He as <-. cbn. split; [|exact I].
    apply existsb_exists in Hopt as [o [Ho Heq]].
    apply String.eqb_eq in Heq. now subst.
  - destruct (nth_error (nodes (view w)) i) as [node|] eqn:Hn; [|discriminate].
    injection He as <-. cbn. split; [exact Hsel|].
    rewrite <- Hview. apply in_map. unfold currentSensors.
    apply in_map. now apply nth_error_In with i.
  - destruct (panel (view w)); [|discriminate].
    injection He as <-. cbn. split; [exact Hsel | exact I].
  - injection He as <-. split; assumption.
Qed.

Lemma step_consistent e w w' :
  consistent w -> step random e w = Some (Rendered w') -> consistent w'.
Proof.
  intros Hw Hs. unfold step in Hs.
  destruct (handle e w) as [st|] eqn:He; [|discriminate].
  destruct (handle_consistent e w st Hw He) as [Hsel Hact].
  destruct (commit_consistent st (drawn w) Hsel Hact) as [w1 [Hc [_ Hcons]]].
  rewrite Hc in Hs. now injection Hs as <-.
Qed.

Lemma reachable_consistent w : reachable random w -> consistent w.
Proof.
  induction 1 as [w Hm|w e w' _ IH Hs].
  - unfold mount in Hm.
    destruct (commit_consistent initialState 0) as [w1 [Hc [_ Hcons]]];
      [simpl; auto | exact I |].
    rewrite Hc in Hm. now injection Hm as <-.
  - exact (step_consistent e w w' IH Hs).
Qed.

(** No event offered by a reachable view makes the next render throw. *)
Lemma step_renders e w st :
  reachable random w -> handle e w = Some st ->
  exists w', step random e w = Some (Rendered w') /\ state w' = st.
Proof.
  intros Hr He. unfold step. rewrite He.
  destruct (handle_consistent e w st (reachable_consistent w Hr) He) as [Hsel Hact].
  destruct (commit_consistent st (drawn w) Hsel Hact) as [w' [Hc [Hst _]]].
  exists w'. now rewrite Hc.
Qed.

Lemma consistent_active w a :
  consistent w -> activeSensor (state w) = Some a ->
  exists s, In s (currentSensors w) /\
            id s = id a /\ label s = label a /\ pos s = pos a.
Proof.
  intros [_ [Hview Hact]] Ha. rewrite Ha in Hact. rewrite <- Hview in Hact.
  apply in_map_iff in Hact as [s [Hs Hin]].
  exists s. split; [exact Hin|].
  unfold skeleton in Hs. injection Hs as -> -> ->. auto.
Qed.

Lemma run_reachable es :
  forall w w', reachable random w -> run random es w = Some (Rendered w') ->
               reachable random w'.
Proof.
  induction es as [|e es IH]; intros w w' Hr Hrun; simpl in Hrun.
  - now injection Hrun as <-.
  - destruct (step random e w) as [[w1|]|] eqn:Hs; try discriminate.
    apply (IH w1 w'); [|exact Hrun].
    now apply reach_step with w e.
Qed.

Lemma play_reachable es w :
  play random es = Some (Rendered w) -> reachable random w.
Proof.
  unfold play. destruct (mount random) as [w0|] eqn:Hm; [|discriminate].
  apply run_reachable. now apply reach_mount.
Qed.

End DashboardFacts.

Section Commit.

Variable random : nat -> Q.

Lemma renderPanel_none k : renderPanel random None k = (None, k).
Proof. reflexivity. Qed.

Lemma renderPanel_some s k :
  exists hs,
    fst (renderPanel random (Some s) k)
    = Some {| heading := label s;
              sensorId := id s;
              rows := [ {| rowLabel := "Temperature"; rowValue := temp s |};
                        {| rowLabel := "Humidity"; rowValue := hum s |};
                        {| rowLabel := "Air Moisture"; rowValue := moisture s |};
                        {| rowLabel := "Wind Speed"; rowValue := wind s |} ];
              badge := risk s;
              trend := hs |}.
Proof.
  unfold renderPanel, bind, ret.
  destruct (trendBars random 12 k) as [hs k']. now exists hs.
Qed.

(** What a successful commit holds: the state it was given, a region of the
    picker, that region's fresh sensors, and the panel of the active sensor. *)
Lemma commit_rendered st k w :
  commit random st k = Rendered w ->
  state w = st /\
  panel (view w)
  = fst (renderPanel random (activeSensor st) (snd (mountains random k))) /\
  ((selectedID st = "m1" /\
    currentSensors w
    = fst (generateSensorsFromPositions random (m1 manualSensorPositions) 1 k)) \/
   (selectedID st = "m2" /\
    currentSensors w
    = fst (generateSensorsFromPositions
             random (m2 manualSensorPositions) 2
             (snd (generateSensorsFromPositions
                     random (m1 manualSensorPositions) 1 k))))).
Proof.
  unfold commit. intros Hc.
  destruct (string_dec (selectedID st) "m1") as [E1|N1].
  - destruct (dashboard_m1 random st k E1) as [p [k' [Hrun Hp]]].
    rewrite Hrun in Hc. injection Hc as <-. unfold currentSensors.
    cbn [state view panel nodes]. rewrite nodes_data. auto.
  - destruct (string_dec (selectedID st) "m2") as [E2|N2].
    + destruct (dashboard_m2 random st k E2) as [p [k' [Hrun Hp]]].
      rewrite Hrun in Hc. injection Hc as <-. unfold currentSensors.
      cbn [state view panel nodes]. rewrite nodes_data. auto.
    + pose proof (dashboard_unknown random st k N1 N2) as Hthrow.
      destruct (MeghaGaahDashboard random st k) as [[v|] k']; cbn in Hthrow;
        discriminate.
Qed.

Lemma step_rendered e w w' :
  step random e w = Some (Rendered w') ->
  exists st, handle e w = Some st /\ commit random st (drawn w) = Rendered w'.
Proof.
  unfold step. destruct (handle e w) as [st|]; [|discriminate].
  intros H. injection H as H. now exists st.
Qed.

End Commit.

(** ** The selection state machine *)

(** C1 (as amended): at every reachable state the active sensor, when
    present, has the id, label and position of a sensor of the selected
    region's rendered list, and every event (region change, marker click,
    close, re-render) leads to a state where this holds again. *)
Theorem active_sensor_matches_region (random : nat -> Q) (w : World) :
  reachable random w ->
  activeBelongsById w /\
  (forall e w', step random e w = Some (Rendered w') -> activeBelongsById w').
Proof.
  intros Hr. split.
  - intros a Ha. exact (consistent_active w a (reachable_consistent random w Hr) Ha).
  - intros e w' Hs a Ha.
    apply (consistent_active w' a); [|exact Ha].
    apply (reachable_consistent random). now apply reach_step with w e.
Qed.

Lemma worldAfter_reachable (random : nat -> Q) (es : list Event) :
  play random es = Some (Rendered (worldAfter random es)) ->
  reachable random (worldAfter random es).
Proof. apply play_reachable. Qed.

Lemma active_sensor_matches_region_witness :
  reachable harmonic (worldAfter harmonic [ClickSensorNode 2]) /\
  activeBelongsById (worldAfter harmonic [ClickSensorNode 2]).
Proof.
  assert (Hr : reachable harmonic (worldAfter harmonic [ClickSensorNode 2])).
  { apply worldAfter_reachable. vm_compute. reflexivity. }
  split; [exact Hr|].
  exact (proj1 (active_sensor_matches_region
                  harmonic (worldAfter harmonic [ClickSensorNode 2]) Hr)).
Defined.

(** C1 as stated fails: with the draws 1/2, 1/3, 1/4, ... a click on the
    Base Camp marker of region m1 makes the clicked record active, and the
    render that follows synthesizes the region's sensors anew, so the active
    record (6.1°C) is none of the records of the rendered list (Base Camp
    now reads 5.2°C). *)
Lemma active_record_not_in_rendered_list :
  reachable harmonic (worldAfter harmonic [ClickSensorNode 2]) /\
  exists a s,
    activeSensor (state (worldAfter harmonic [ClickSensorNode 2])) = Some a /\
    nth_error (currentSensors (worldAfter harmonic [ClickSensorNode 2])) 2 = Some s /\
    id a = 102 /\ id s = 102 /\ temp a = "6.1°C" /\ temp s = "5.2°C" /\
    ~ In a (currentSensors (worldAfter harmonic [ClickSensorNode 2])) /\
    ~ activeBelongs (worldAfter harmonic [ClickSensorNode 2]).
Proof.
  split.
  { apply worldAfter_reachable. vm_compute. reflexivity. }
  assert (Hnot : forall a,
             activeSensor (state (worldAfter harmonic [ClickSensorNode 2])) = Some a ->
             ~ In a (currentSensors (worldAfter harmonic [ClickSensorNode 2]))).
  { intros a Ha Hin. vm_compute in Ha. injection Ha as <-.
    vm_compute in Hin.
    repeat (destruct Hin as [Hin|Hin]; [discriminate Hin|]). exact Hin. }
  eexists. eexists.
  split; [vm_compute; reflexivity|].
  split; [vm_compute; reflexivity|].
  cbn [id temp].
  repeat (split; [reflexivity|]).
  split.
  - apply Hnot. vm_compute. reflexivity.
  - intros Hall. eapply Hnot; [|apply Hall]; vm_compute; reflexivity.
Qed.

(** C2 (as amended): [selectSensor] makes the record it is given the active
    sensor whether or not the record belongs to the rendered list, and leaves
    the selected region as it is; a marker click, the only caller, passes a
    record of the rendered list of the selected region. *)
Theorem selectSensor_sets_active (s : Sensor) (st : AppState) :
  selectSensor s st = {| selectedID := selectedID st; activeSensor := Some s |} /\
  (forall (w : World) (i : nat) (st' : AppState),
      handle (ClickSensorNode i) w = Some st' ->
      exists d, nth_error (currentSensors w) i = Some d /\
                In d (currentSensors w) /\
                st' = selectSensor d (state w)).
Proof.
  split; [reflexivity|].
  intros w i st' He. cbn [handle] in He.
  destruct (nth_error (nodes (view w)) i) as [node|] eqn:Hn; [|discriminate].
  injection He as <-. exists (data node).
  assert (Hd : nth_error (currentSensors w) i = Some (data node)).
  { unfold currentSensors. now rewrite nth_error_map, Hn. }
  split; [exact Hd|]. split; [|reflexivity].
  now apply nth_error_In with i.
Qed.

(** C2 as stated fails: in the first world of the draws 1/2, 1/3, ...,
    where region m1 is shown, [selectSensor] on a record of region m2 is no
    no-op: the record becomes the active sensor. *)
Lemma selectSensor_of_foreign_record :
  selectedID (state (worldAfter harmonic [])) = "m1" /\
  ~ In strayReading (currentSensors (worldAfter harmonic [])) /\
  activeSensor (selectSensor strayReading (state (worldAfter harmonic [])))
  = Some strayReading /\
  selectSensor strayReading (state (worldAfter harmonic []))
  <> state (worldAfter harmonic []).
Proof.
  split; [vm_compute; reflexivity|]. split; [|split].
  - intros Hin. vm_compute in Hin.
    repeat (destruct Hin as [Hin|Hin]; [discriminate Hin|]). exact Hin.
  - reflexivity.
  - vm_compute. discriminate.
Qed.

(** C6: [selectRegion] sets the selected region to the chosen id and the
    active sensor to none, whatever sensor was active; after a region change
    the state is that one and the panel is not rendered. *)
Theorem selectRegion_clears_active (random : nat -> Q) (value : string) (st : AppState) :
  selectRegion value st = {| selectedID := value; activeSensor := None |} /\
  selectedID (selectRegion value st) = value /\
  activeSensor (selectRegion value st) = None /\
  (forall w w',
      step random (ChangeRegion value) w = Some (Rendered w') ->
      selectedID (state w') = value /\
      activeSensor (state w') = None /\
      panel (view w') = None).
Proof.
  repeat (split; [reflexivity|]).
  intros w w' Hs.
  destruct (step_rendered random _ w w' Hs) as [st' [He Hc]].
  cbn [handle] in He.
  destruct (existsb (String.eqb value) pickerOptions
            && negb (String.eqb value (selectedID (state w)))); [|discriminate].
  injection He as <-.
  destruct (commit_rendered random _ _ _ Hc) as [Hst [Hp _]].
  rewrite Hp, Hst. cbn. auto.
Qed.

(** C10: [clearSensor] sets the active sensor to none and changes nothing
    else of the selection state: the selected region is the one before. *)
Theorem clearSensor_frame (random : nat -> Q) (st : AppState) :
  clearSensor st = {| selectedID := selectedID st; activeSensor := None |} /\
  activeSensor (clearSensor st) = None /\
  selectedID (clearSensor st) = selectedID st /\
  (forall w w',
      step random ClickClose w = Some (Rendered w') ->
      selectedID (state w') = selectedID (state w) /\
      activeSensor (state w') = None /\
      panel (view w') = None).
Proof.
  repeat (split; [reflexivity|]).
  intros w w' Hs.
  destruct (step_rendered random _ w w' Hs) as [st' [He Hc]].
  cbn [handle] in He.
  destruct (panel (view w)); [|discriminate].
  injection He as <-.
  destruct (commit_rendered random _ _ _ Hc) as [Hst [Hp _]].
  rewrite Hp, Hst. cbn. auto.
Qed.

Section Scenario.

Variable random : nat -> Q.

Lemma commit_renders st k :
  In (selectedID st) pickerOptions ->
  exists w, commit random st k = Rendered w.
Proof.
  intros Hsel. unfold commit. apply pickerOptions_In in Hsel as [E|E];
    [destruct (dashboard_m1 random st k E) as [p [k' [Hrun _]]]
    |destruct (dashboard_m2 random st k E) as [p [k' [Hrun _]]]];
    rewrite Hrun; eauto.
Qed.

Lemma step_commits e w st :
  handle e w = Some st ->
  In (selectedID st) pickerOptions ->
  exists w', step random e w = Some (Rendered w') /\
             commit random st (drawn w) = Rendered w'.
Proof.
  intros He Hsel. unfold step. rewrite He.
  destruct (commit_renders st (drawn w) Hsel) as [w' Hc].
  exists w'. now rewrite Hc.
Qed.

Lemma currentSensors_m1 w st k :
  commit random st k = Rendered w -> selectedID st = "m1" ->
  List.length (currentSensors w) = 7%nat /\
  map id (currentSensors w) = [100; 101; 102; 103; 104; 105; 106] /\
  exists a, nth_error (currentSensors w) 2 = Some a /\ label a = "Base Camp".
Proof.
  intros Hc Hsel.
  destruct (commit_rendered random st k w Hc) as [_ [_ [[_ Hcur]|[E _]]]];
    [|rewrite Hsel in E; discriminate].
  rewrite Hcur. split; [|split].
  - unfold generateSensorsFromPositions. now rewrite mapWithIndex_length.
  - now rewrite generated_ids.
  - destruct (generated_nth random (m1 manualSensorPositions) 1 k 2
                (mkAnchor 0 9463 2000 "Base Camp") eq_refl) as [a [Ha [_ [Hl _]]]].
    exists a. split; [exact Ha | exact Hl].
Qed.

Lemma currentSensors_m2 w st k :
  commit random st k = Rendered w -> selectedID st = "m2" ->
  List.length (currentSensors w) = 4%nat /\
  map id (currentSensors w) = [200; 201; 202; 203].
Proof.
  intros Hc Hsel.
  destruct (commit_rendered random st k w Hc) as [_ [_ [[E _]|[_ Hcur]]]];
    [rewrite Hsel in E; discriminate|].
  rewrite Hcur. split.
  - unfold generateSensorsFromPositions. now rewrite mapWithIndex_length.
  - now rewrite generated_ids.
Qed.

Lemma click_handles w i a :
  nth_error (currentSensors w) i = Some a ->
  handle (ClickSensorNode i) w = Some (selectSensor a (state w)).
Proof.
  unfold currentSensors. rewrite nth_error_map. cbn [handle].
  destruct (nth_error (nodes (view w)) i) as [node|]; [|discriminate].
  cbn. now intros [= <-].
Qed.

End Scenario.

(** C8: on the concrete dataset, whatever the draws: the first render shows
    region m1 with 7 sensors of ids 100..106, the third labelled Base Camp;
    a click on it makes it the active sensor and the panel shows its label
    and 4 metric rows; the close button leaves no active sensor and no
    panel; a change to region m2 shows 4 sensors of ids 200..203 with no
    active sensor; and a change back to m1 shows ids 100..106 again. *)
Theorem base_camp_scenario (random : nat -> Q) :
  exists w1 w2 w3 w4 w5 a p,
    mount random = Rendered w1 /\
    selectedID (state w1) = "m1" /\
    List.length (currentSensors w1) = 7%nat /\
    map id (currentSensors w1) = [100; 101; 102; 103; 104; 105; 106] /\
    nth_error (currentSensors w1) 2 = Some a /\ label a = "Base Camp" /\
    step random (ClickSensorNode 2) w1 = Some (Rendered w2) /\
    activeSensor (state w2) = Some a /\
    panel (view w2) = Some p /\ heading p = "Base Camp" /\
    List.length (rows p) = 4%nat /\
    map rowLabel (rows p)
    = ["Temperature"; "Humidity"; "Air Moisture"; "Wind Speed"] /\
    map rowValue (rows p) = [temp a; hum a; moisture a; wind a] /\
    step random ClickClose w2 = Some (Rendered w3) /\
    activeSensor (state w3) = None /\ panel (view w3) = None /\
    step random (ChangeRegion "m2") w3 = Some (Rendered w4) /\
    selectedID (state w4) = "m2" /\
    List.length (currentSensors w4) = 4%nat /\
    map id (currentSensors w4) = [200; 201; 202; 203] /\
    activeSensor (state w4) = None /\ panel (view w4) = None /\
    step random (ChangeRegion "m1") w4 = Some (Rendered w5) /\
    selectedID (state w5) = "m1" /\
    List.length (currentSensors w5) = 7%nat /\
    map id (currentSensors w5) = [100; 101; 102; 103; 104; 105; 106] /\
    activeSensor (state w5) = None.
Proof.
  (* first render *)
  destruct (commit_renders random initialState 0) as [w1 H1]; [simpl; auto|].
  destruct (commit_rendered random _ _ _ H1) as [S1 _].
  destruct (currentSensors_m1 random w1 _ _ H1 eq_refl) as [L1 [I1 [a [Na La]]]].
  (* click on the third marker *)
  pose proof (click_handles w1 2 a Na) as Hh2.
  destruct (step_commits random _ w1 _ Hh2) as [w2 [T2 H2]];
    [rewrite S1; simpl; auto|].
  destruct (commit_rendered random _ _ _ H2) as [S2 [P2 _]].
  destruct (renderPanel_some random a (snd (mountains random (drawn w1))))
    as [hs Hp].
  cbn [selectSensor setActiveSensor activeSensor] in P2. rewrite Hp in P2.
  (* close *)
  assert (Hh3 : handle ClickClose w2 = Some (clearSensor (state w2))).
  { cbn [handle]. now rewrite P2. }
  destruct (step_commits random _ w2 _ Hh3) as [w3 [T3 H3]];
    [rewrite S2, S1; simpl; auto|].
  destruct (commit_rendered random _ _ _ H3) as [S3 [P3 _]].
  (* region m2 *)
  assert (Hh4 : handle (ChangeRegion "m2") w3 = Some (selectRegion "m2" (state w3))).
  { cbn [handle]. rewrite S3, S2, S1. reflexivity. }
  destruct (step_commits random _ w3 _ Hh4) as [w4 [T4 H4]]; [simpl; auto|].
  destruct (commit_rendered random _ _ _ H4) as [S4 [P4 _]].
  destruct (currentSensors_m2 random w4 _ _ H4 eq_refl) as [L4 I4].
  (* region m1 again *)
  assert (Hh5 : handle (ChangeRegion "m1") w4 = Some (selectRegion "m1" (state w4))).
  { cbn [handle]. rewrite S4. reflexivity. }
  destruct (step_commits random _ w4 _ Hh5) as [w5 [T5 H5]]; [simpl; auto|].
  destruct (commit_rendered random _ _ _ H5) as [S5 _].
  destruct (currentSensors_m1 random w5 _ _ H5 eq_refl) as [L5 [I5 _]].
  exists w1, w2, w3, w4, w5, a. eexists.
  split; [exact H1|]. split; [now rewrite S1|].
  split; [exact L1|]. split; [exact I1|]. split; [exact Na|]. split; [exact La|].
  split; [exact T2|]. split; [now rewrite S2|].
  split; [exact P2|]. cbn [heading rows map List.length rowLabel rowValue].
  split; [exact La|]. do 3 (split; [reflexivity|]).
  split; [exact T3|]. split; [now rewrite S3|]. split; [now rewrite P3|].
  split; [exact T4|]. split; [now rewrite S4|].
  split; [exact L4|]. split; [exact I4|]. split; [now rewrite S4|].
  split; [now rewrite P4|].
  split; [exact T5|]. split; [now rewrite S5|].
  split; [exact L5|]. split; [exact I5|]. now rewrite S5.
Qed.

(** ** The region lookup *)

Lemma mountains_run (random : nat -> Q) k :
  exists s1 s2,
    fst (mountains random k)
    = [ ("m1", {| name := "Kashmir Valley"; path := "/mountain1.glb"; sensors := s1 |});
        ("m2", {| name := "Mandi Ridge"; path := "/mountain2.glb"; sensors := s2 |}) ] /\
    map skeleton s1 = anchorSkeletons 1 (m1 manualSensorPositions) /\
    map skeleton s2 = anchorSkeletons 2 (m2 manualSensorPositions).
Proof.
  unfold mountains, bind, ret.
  pose proof (generated_skeletons random (m1 manualSensorPositions) 1 k) as H1.
  destruct (generateSensorsFromPositions random (m1 manualSensorPositions) 1 k)
    as [s1 k1].
  pose proof (generated_skeletons random (m2 manualSensorPositions) 2 k1) as H2.
  destruct (generateSensorsFromPositions random (m2 manualSensorPositions) 2 k1)
    as [s2 k2].
  exists s1, s2. auto.
Qed.

Lemma getProperty_inherited {A} (obj : list (string * A)) value :
  ownProperty obj value = None ->
  (getProperty obj value = Inherited <-> In value objectPrototypeKeys) /\
  (getProperty obj value = Undefined <-> ~ In value objectPrototypeKeys).
Proof.
  intros Hown. unfold getProperty. rewrite Hown.
  destruct (existsb (String.eqb value) objectPrototypeKeys) eqn:E.
  - apply existsb_exists in E as [o [Ho Heq]]. apply String.eqb_eq in Heq. subst o.
    split; split; intros H; try reflexivity; try discriminate; try exact Ho.
    contradiction.
  - assert (Hn : ~ In value objectPrototypeKeys).
    { intros Hin. apply Bool.not_true_iff_false in E. apply E.
      apply existsb_exists. exists value. split; [exact Hin|].
      apply String.eqb_refl. }
    split; split; intros H; try reflexivity; try discriminate; try exact Hn.
    contradiction.
Qed.

(** C7 (as amended): [mountains[id]] is the region of the id for the two
    registered ids; for any other id the lookup raises nothing: it is
    [undefined], or, for the name of a member of [Object.prototype], that
    inherited member; and the render that uses it throws a TypeError. *)
Theorem region_lookup (random : nat -> Q) (k : nat) :
  (exists s1,
      getProperty (fst (mountains random k)) "m1"
      = Own {| name := "Kashmir Valley"; path := "/mountain1.glb"; sensors := s1 |} /\
      map skeleton s1 = anchorSkeletons 1 (m1 manualSensorPositions)) /\
  (exists s2,
      getProperty (fst (mountains random k)) "m2"
      = Own {| name := "Mandi Ridge"; path := "/mountain2.glb"; sensors := s2 |} /\
      map skeleton s2 = anchorSkeletons 2 (m2 manualSensorPositions)) /\
  (forall value,
      value <> "m1" -> value <> "m2" ->
      (getProperty (fst (mountains random k)) value = Inherited
       <-> In value objectPrototypeKeys) /\
      (notFound (getProperty (fst (mountains random k)) value)
       <-> ~ In value objectPrototypeKeys) /\
      (forall st j, selectedID st = value ->
                    fst (MeghaGaahDashboard random st j) = TypeError)).
Proof.
  destruct (mountains_run random k) as [s1 [s2 [Hms [H1 H2]]]]. rewrite Hms.
  split; [exists s1; split; [reflexivity | exact H1]|].
  split; [exists s2; split; [reflexivity | exact H2]|].
  intros value N1 N2.
  assert (Hown : ownProperty
                   [ ("m1", {| name := "Kashmir Valley"; path := "/mountain1.glb";
                               sensors := s1 |});
                     ("m2", {| name := "Mandi Ridge"; path := "/mountain2.glb";
                               sensors := s2 |}) ] value = None).
  { unfold ownProperty.
    destruct (String.eqb_spec "m1" value) as [E|_]; [now subst|].
    destruct (String.eqb_spec "m2" value) as [E|_]; [now subst|]. reflexivity. }
  destruct (getProperty_inherited _ value Hown) as [Hi Hu].
  split; [exact Hi|]. split; [exact Hu|].
  intros st j Hsel. apply dashboard_unknown; now rewrite Hsel.
Qed.

(** C7 as stated fails: ["constructor"] is not a registered id, and the
    lookup neither fails nor finds nothing: it returns the member inherited
    from [Object.prototype]; for ["m3"] it returns [undefined]; the failure
    comes later, as the TypeError of the render. *)
Lemma lookup_of_unregistered_id :
  ~ In "constructor" pickerOptions /\
  getProperty (fst (mountains harmonic 0%nat)) "constructor" = Inherited /\
  ~ notFound (getProperty (fst (mountains harmonic 0%nat)) "constructor") /\
  getProperty (fst (mountains harmonic 0%nat)) "m3" = Undefined /\
  fst (MeghaGaahDashboard harmonic
         {| selectedID := "constructor"; activeSensor := None |} 0%nat) = TypeError /\
  fst (MeghaGaahDashboard harmonic
         {| selectedID := "m3"; activeSensor := None |} 0%nat) = TypeError.
Proof.
  split.
  { intros Hin. apply pickerOptions_In in Hin as [E|E]; discriminate. }
  split; [vm_compute; reflexivity|].
  split.
  { unfold notFound. vm_compute. discriminate. }
  split; [vm_compute; reflexivity|].
  split; vm_compute; reflexivity.
Qed.

(** ** The camera logger *)

Module CameraLoggerFacts.

Import CameraLogger.

Local Open Scope Q_scope.

Lemma nearestInt_nearest (v : Q) :
  inject_Z (NumberFormat.nearestInt v) - (1 # 2) <= v /\
  v < inject_Z (NumberFormat.nearestInt v) + (1 # 2).
Proof.
  unfold NumberFormat.nearestInt.
  pose proof (Qfloor_le (v + (1 # 2))) as Hdown.
  pose proof (Qlt_floor (v + (1 # 2))) as Hup.
  rewrite inject_Z_plus in Hup. change (inject_Z 1) with 1 in Hup.
  split; lra.
Qed.

(** C9 (as amended): a change event of the camera appends to the console,
    between two rules, the camera's x, y and z and a distance, each printed
    by [toFixed(2)], where the distance is the binary64 value of
    [sqrt(x*x + y*y + z*z)], every operation rounded; a finite value that is
    not negative and below 10^21 is printed as the hundredth nearest to it;
    the page (selection state and rendered scene) is the one before. *)
Theorem camera_change_logs (numberToString : float -> string)
        (position : Vector3) (b : Browser) :
  console (cameraChanged numberToString position b)
  = (console b
     ++ [ [Text rule];
          [Text "📷 CAMERA POSITION:";
           Fields [ ("x", toFixed numberToString (x position) 2);
                    ("y", toFixed numberToString (y position) 2);
                    ("z", toFixed numberToString (z position) 2) ]];
          [Text "🔍 ZOOM DISTANCE:";
           Text (toFixed numberToString
                   (PrimFloat.sqrt (x position * x position
                                    + y position * y position
                                    + z position * z position)%float) 2)];
          [Text rule] ])%list /\
  (forall v q,
      valueOf v = Some q -> 0 <= q -> q < inject_Z (10 ^ 21) ->
      exists n : Z,
        toFixed numberToString v 2 = fixedDigits n 2 /\
        inject_Z n - (1 # 2) <= q * 100 /\ q * 100 < inject_Z n + (1 # 2)) /\
  page (cameraChanged numberToString position b) = page b.
Proof.
  split; [reflexivity|]. split; [|reflexivity].
  intros v q Hv Hq0 Hq1. unfold toFixed. rewrite Hv.
  assert (Habs : Qabs q == q) by (now apply Qabs_pos).
  destruct (Qle_bool (inject_Z (10 ^ 21)) (Qabs q)) eqn:E.
  - apply Qle_bool_iff in E. rewrite Habs in E. lra.
  - unfold NumberFormat.toFixed.
    destruct (Qlt_le_dec q 0) as [Hneg|_]; [lra|].
    exists (NumberFormat.nearestInt (q * inject_Z (pow10 2))).
    split; [reflexivity|].
    change (inject_Z (pow10 2)) with (100 # 1).
    apply nearestInt_nearest.
Qed.

(** C9 as stated fails: at the camera position (1024, 16, 0.125 - 2^-30)
    the distance the handler computes is the binary64 value 1024.125, whose
    square is not the sum of the squares of the coordinates; the Euclidean
    norm is below 1024.125 and nearest to 1024.12, and the handler prints
    1024.13. *)
Lemma distance_is_not_the_norm :
  (exists d n2,
      valueOf (PrimFloat.sqrt (x offAxis * x offAxis + y offAxis * y offAxis
                               + z offAxis * z offAxis)%float)
      = Some d /\
      d == 8193 # 8 /\
      normSquared offAxis = Some n2 /\
      ~ d * d == n2 /\
      ((102412 # 1) - (1 # 2)) * ((102412 # 1) - (1 # 2)) <= n2 * 10000 /\
      n2 * 10000 < ((102412 # 1) + (1 # 2)) * ((102412 # 1) + (1 # 2))) /\
  handleChange (fun _ => "") offAxis []
  = [ [Text rule];
      [Text "📷 CAMERA POSITION:";
       Fields [("x", "1024.00"); ("y", "16.00"); ("z", "0.12")]];
      [Text "🔍 ZOOM DISTANCE:"; Text "1024.13"];
      [Text rule] ].
Proof.
  split.
  - eexists. eexists. split; [vm_compute; reflexivity|].
    split; [vm_compute; reflexivity|].
    split; [vm_compute; reflexivity|].
    split; [|split].
    + intros H. vm_compute in H. discriminate H.
    + vm_compute. discriminate.
    + vm_compute. reflexivity.
  - vm_compute. reflexivity.
Qed.

End CameraLoggerFacts.

(** * Further properties of the component *)

(** ** Draws *)

Section Draws.

Variable random : nat -> Q.

(** The outputs of a [map] with index cost what each of them costs. *)
Lemma mapWithIndex_drawn {A B} (f : A -> nat -> Rand B) (cost : B -> nat) :
  (forall a i k, snd (f a i k) = (k + cost (fst (f a i k)))%nat) ->
  forall items i k,
    snd (mapWithIndex f i items k)
    = (k + list_sum (map cost (fst (mapWithIndex f i items k))))%nat.
Proof.
  intros Hf items. induction items as [|a rest IH]; intros i k; simpl.
  - lia.
  - unfold bind. pose proof (Hf a i k) as Ha.
    destruct (f a i k) as [b k1].
    specialize (IH (S i) k1).
    destruct (mapWithIndex f (S i) rest k1) as [bs k2]. simpl in *. lia.
Qed.

Lemma sensorAt_drawn mountainId p i k :
  snd (sensorAt random mountainId p i k)
  = (k + drawsOf (fst (sensorAt random mountainId p i k)))%nat.
Proof.
  unfold drawsOf, sensorAt, drawRisk, bind, mathRandom, ret.
  repeat match goal with
         | |- context [Qlt_le_dec ?a ?b] => destruct (Qlt_le_dec a b)
         end; cbn; lia.
Qed.

Lemma list_sum_bounds {B} (cost : B -> nat) (lo hi : nat) (l : list B) :
  (forall b, lo <= cost b <= hi)%nat ->
  (lo * List.length l <= list_sum (map cost l) <= hi * List.length l)%nat.
Proof.
  intros Hc. induction l as [|b rest IH]; simpl; [lia|].
  specialize (Hc b). lia.
Qed.

Lemma drawsOf_bounds s : (5 <= drawsOf s <= 6)%nat.
Proof. unfold drawsOf. destruct (String.eqb (risk s) "HIGH"); lia. Qed.

Lemma trendBars_run n :
  forall k,
    snd (trendBars random n k) = (k + n)%nat /\
    List.length (fst (trendBars random n k)) = n /\
    fst (trendBars random n k)
    = map (fun j => round64 (round64 (random j * 60) + 30)) (seq k n).
Proof.
  induction n as [|n IH]; intros k; simpl.
  - repeat split. lia.
  - unfold bind, mathRandom, ret.
    destruct (IH (S k)) as [Hs [Hl Hv]].
    destruct (trendBars random n (S k)) as [hs k2]. simpl in *.
    repeat split; [lia | now rewrite Hl | now rewrite Hv].
Qed.

End Draws.

Lemma generated_risks (random : nat -> Q) mountainId positions :
  forall i k,
    map risk (fst (mapWithIndex (sensorAt random mountainId) i positions k))
    = risksFrom random k (List.length positions).
Proof.
  induction positions as [|a rest IH]; intros i k; [reflexivity|].
  cbn [mapWithIndex List.length risksFrom]. unfold bind.
  pose proof (sensorAt_risk random mountainId a i k) as Hr.
  pose proof (sensorAt_drawn random mountainId a i k) as Hd.
  destruct (sensorAt random mountainId a i k) as [s k1]. cbn [fst snd] in *.
  specialize (IH (S i) k1).
  destruct (mapWithIndex (sensorAt random mountainId) (S i) rest k1) as [ss k2].
  cbn [fst snd map ret] in *. rewrite IH, Hr, Hd.
  unfold drawsOf. now rewrite Hr.
Qed.

(** C4: the risk of a synthesized sensor is computed from two draws: HIGH
    when the first exceeds the literal 0.7, otherwise MEDIUM when a second
    draw exceeds the literal 0.4, otherwise LOW, the second draw being made
    only in the second case; each sensor reads its own fifth and sixth
    draw, the sensors of a call one after the other; and the risk is one of
    LOW, MEDIUM, HIGH for every pair of draws and every sensor. *)
Theorem risk_from_two_draws (random : nat -> Q) positions mountainId k :
  (forall j, drawRisk random j
             = (riskOfDraws (random j) (random (S j)),
                if Qlt_le_dec literal_0_7 (random j) then S j else S (S j))) /\
  (forall u1 u2,
      riskOfDraws u1 u2
      = if Qlt_le_dec literal_0_7 u1 then "HIGH"
        else if Qlt_le_dec literal_0_4 u2 then "MEDIUM" else "LOW") /\
  literal_0_7 = round64 (7 # 10) /\
  literal_0_4 = round64 (4 # 10) /\
  (forall p i j,
      risk (fst (sensorAt random mountainId p i j))
      = riskOfDraws (random (4 + j)%nat) (random (5 + j)%nat)) /\
  map risk (fst (generateSensorsFromPositions random positions mountainId k))
  = risksFrom random k (List.length positions) /\
  (forall u1 u2,
      riskOfDraws u1 u2 = "LOW" \/ riskOfDraws u1 u2 = "MEDIUM"
      \/ riskOfDraws u1 u2 = "HIGH") /\
  Forall (fun s => risk s = "LOW" \/ risk s = "MEDIUM" \/ risk s = "HIGH")
         (fst (generateSensorsFromPositions random positions mountainId k)).
Proof.
  split; [exact (drawRisk_run random)|]. split; [reflexivity|].
  split; [vm_compute; reflexivity|]. split; [vm_compute; reflexivity|].
  split; [intros p i j; apply sensorAt_risk|].
  split; [apply generated_risks|].
  split; [exact riskOfDraws_cases|].
  unfold generateSensorsFromPositions. apply mapWithIndex_Forall.
  intros a i k'. rewrite sensorAt_risk. apply riskOfDraws_cases.
Qed.

(** X7: a call of [generateSensorsFromPositions] on n anchors makes five
    draws per sensor and one more for each sensor whose risk is not HIGH, so
    between 5n and 6n draws in all. *)
Theorem synthesizer_draw_count (random : nat -> Q) positions mountainId k :
  let run := generateSensorsFromPositions random positions mountainId k in
  snd run = (k + 5 * List.length positions
             + List.length (filter (fun s => negb (String.eqb (risk s) "HIGH"))
                                   (fst run)))%nat /\
  (k + 5 * List.length positions <= snd run <= k + 6 * List.length positions)%nat.
Proof.
  cbv zeta. unfold generateSensorsFromPositions.
  pose proof (mapWithIndex_drawn (sensorAt random mountainId) drawsOf
                (sensorAt_drawn random mountainId) positions 0%nat k) as Hrun.
  pose proof (mapWithIndex_length (sensorAt random mountainId) positions 0%nat k)
    as Hlen.
  set (out := fst (mapWithIndex (sensorAt random mountainId) 0 positions k)) in *.
  assert (Hsum : forall l : list Sensor,
             list_sum (map drawsOf l)
             = (5 * List.length l
                + List.length (filter (fun s => negb (String.eqb (risk s) "HIGH")) l))%nat).
  { induction l as [|s rest IH]; simpl; [reflexivity|].
    unfold drawsOf at 1. destruct (String.eqb (risk s) "HIGH"); simpl; lia. }
  pose proof (list_sum_bounds drawsOf 5 6 out drawsOf_bounds) as Hb.
  rewrite Hrun. rewrite <- Hlen. split; [rewrite Hsum|]; lia.
Qed.

(** ** What every reachable world looks like *)

Section Worlds.

Variable random : nat -> Q.

(** The view of a successful commit, in full. *)
Lemma commit_shape st k w :
  commit random st k = Rendered w ->
  state w = st /\
  exists sensors url,
    view w = {| panel := fst (renderPanel random (activeSensor st)
                                (snd (mountains random k)));
                modelUrl := url;
                nodes := map (sensorNode (activeSensor st)) sensors |} /\
    ((selectedID st = "m1" /\ url = "/mountain1.glb" /\
      sensors = fst (generateSensorsFromPositions
                       random (m1 manualSensorPositions) 1 k)) \/
     (selectedID st = "m2" /\ url = "/mountain2.glb" /\
      sensors = fst (generateSensorsFromPositions
                       random (m2 manualSensorPositions) 2
                       (snd (generateSensorsFromPositions
                               random (m1 manualSensorPositions) 1 k))))).
Proof.
  unfold commit. intros Hc.
  destruct (string_dec (selectedID st) "m1") as [E1|N1].
  - destruct (dashboard_m1 random st k E1) as [p [k' [Hrun Hp]]].
    rewrite Hrun in Hc. injection Hc as <-. cbn [state view]. subst p.
    split; [reflexivity|]. eexists. eexists. split; [reflexivity|]. left. auto.
  - destruct (string_dec (selectedID st) "m2") as [E2|N2].
    + destruct (dashboard_m2 random st k E2) as [p [k' [Hrun Hp]]].
      rewrite Hrun in Hc. injection Hc as <-. cbn [state view]. subst p.
      split; [reflexivity|]. eexists. eexists. split; [reflexivity|]. right. auto.
    + pose proof (dashboard_unknown random st k N1 N2) as Hthrow.
      destruct (MeghaGaahDashboard random st k) as [[v|] k']; cbn in Hthrow;
        discriminate.
Qed.

(** Every reachable world is the commit of its own state. *)
Lemma reachable_commit w :
  reachable random w -> exists k, commit random (state w) k = Rendered w.
Proof.
  intros Hr. destruct Hr as [w Hm|w0 e w Hr Hs].
  - unfold mount in Hm. destruct (commit_shape _ _ _ Hm) as [Hst _].
    exists 0%nat. now rewrite Hst.
  - destruct (step_rendered random e w0 w Hs) as [st [_ Hc]].
    destruct (commit_shape _ _ _ Hc) as [Hst _].
    exists (drawn w0). now rewrite Hst.
Qed.

End Worlds.

Section WorldFacts.

Variable random : nat -> Q.

Lemma sensorNode_key a sensors :
  map key (map (sensorNode a) sensors) = map id sensors.
Proof.
  induction sensors as [|s rest IH]; simpl; [reflexivity | now rewrite IH].
Qed.

Lemma generated_ids_NoDup positions mountainId k :
  Z.abs (mountainId * 100) + Z.of_nat (List.length positions) <= 2 ^ 53 ->
  NoDup (map id (fst (generateSensorsFromPositions random positions mountainId k))).
Proof.
  intros Hb. rewrite (generated_ids_exact random positions mountainId k Hb).
  apply Injective_map_NoDup; [|apply seq_NoDup].
  intros a b Hab. lia.
Qed.

(** In a list with distinct ids exactly one element has a given id of it. *)
Lemma one_with_id (sensors : list Sensor) (n : Z) :
  NoDup (map id sensors) -> In n (map id sensors) ->
  List.length (filter (fun s => n =? id s) sensors) = 1%nat.
Proof.
  induction sensors as [|s rest IH]; intros Hnd Hin; simpl in *; [contradiction|].
  inversion Hnd as [|? ? Hnotin Hrest]; subst.
  destruct (Z.eqb_spec n (id s)) as [E|N].
  - simpl. f_equal. subst n.
    assert (Hnone : forall l, ~ In (id s) (map id l) ->
                              filter (fun s0 => id s =? id s0) l = []).
    { induction l as [|t l IHl]; intros Hl; simpl in *; [reflexivity|].
      destruct (Z.eqb_spec (id s) (id t)) as [E|_]; [exfalso; auto|].
      apply IHl. auto. }
    now rewrite (Hnone rest Hnotin).
  - apply IH; [exact Hrest|]. destruct Hin as [E|Hin]; [congruence | exact Hin].
Qed.

Lemma filter_isActive a sensors :
  List.length (filter isActive (map (sensorNode (Some a)) sensors))
  = List.length (filter (fun s => id a =? id s) sensors).
Proof.
  induction sensors as [|s rest IH]; simpl; [reflexivity|].
  destruct (id a =? id s); simpl; now rewrite IH.
Qed.

End WorldFacts.

(** X1: from a reachable world no event the view offers makes the next
    render throw: the step commits the handler's state, and the selected
    region is still one of the picker's. *)
Theorem offered_events_render (random : nat -> Q) (e : Event) (w : World)
        (st : AppState) :
  reachable random w ->
  handle e w = Some st ->
  exists w', step random e w = Some (Rendered w') /\
             state w' = st /\
             reachable random w' /\
             In (selectedID (state w')) pickerOptions.
Proof.
  intros Hr He. unfold step. rewrite He.
  destruct (handle_consistent e w st (reachable_consistent random w Hr) He)
    as [Hsel Hact].
  destruct (commit_consistent random st (drawn w) Hsel Hact) as [w' [Hc [Hst _]]].
  exists w'. rewrite Hc. split; [reflexivity|]. split; [exact Hst|].
  split; [|now rewrite Hst].
  apply reach_step with w e; [exact Hr|]. unfold step. now rewrite He, Hc.
Qed.

Lemma offered_events_render_witness :
  reachable harmonic (worldAfter harmonic []) /\
  handle (ClickSensorNode 0) (worldAfter harmonic [])
  = Some (state (worldAfter harmonic [ClickSensorNode 0])) /\
  exists w', step harmonic (ClickSensorNode 0) (worldAfter harmonic [])
             = Some (Rendered w') /\
             state w' = state (worldAfter harmonic [ClickSensorNode 0]) /\
             reachable harmonic w' /\
             In (selectedID (state w')) pickerOptions.
Proof.
  assert (Hr : reachable harmonic (worldAfter harmonic [])).
  { apply worldAfter_reachable. vm_compute. reflexivity. }
  assert (He : handle (ClickSensorNode 0) (worldAfter harmonic [])
               = Some (state (worldAfter harmonic [ClickSensorNode 0]))).
  { vm_compute. reflexivity. }
  split; [exact Hr|]. split; [exact He|].
  exact (offered_events_render harmonic _ _ _ Hr He).
Defined.

(** X2: in every reachable world the detail panel is rendered exactly when
    a sensor is active, and it then shows that sensor's label, id, its four
    formatted metrics, its risk and 12 trend bars. *)
Theorem panel_shows_active_sensor (random : nat -> Q) (w : World) :
  reachable random w ->
  (panel (view w) = None <-> activeSensor (state w) = None) /\
  (forall a, activeSensor (state w) = Some a ->
             exists p, panel (view w) = Some p /\
                       heading p = label a /\ sensorId p = id a /\
                       map rowValue (rows p) = [temp a; hum a; moisture a; wind a] /\
                       badge p = risk a /\
                       List.length (trend p) = 12%nat).
Proof.
  intros Hr. destruct (reachable_commit random w Hr) as [k Hc].
  destruct (commit_shape random _ _ _ Hc) as [_ [sensors [url [Hv _]]]].
  rewrite Hv. cbn [panel].
  destruct (activeSensor (state w)) as [a|].
  - unfold renderPanel, bind, ret.
    destruct (trendBars_run random 12 (snd (mountains random k))) as [_ [Hl _]].
    destruct (trendBars random 12 (snd (mountains random k))) as [hs k'].
    cbn in *. split; [split; discriminate|].
    intros a' [= <-]. eexists. split; [reflexivity|]. cbn. auto.
  - cbn. split; [split; reflexivity|]. discriminate.
Qed.

Lemma panel_shows_active_sensor_witness :
  reachable harmonic (worldAfter harmonic [ClickSensorNode 2]) /\
  (panel (view (worldAfter harmonic [ClickSensorNode 2])) = None
   <-> activeSensor (state (worldAfter harmonic [ClickSensorNode 2])) = None).
Proof.
  assert (Hr : reachable harmonic (worldAfter harmonic [ClickSensorNode 2])).
  { apply worldAfter_reachable. vm_compute. reflexivity. }
  split; [exact Hr|].
  exact (proj1 (panel_shows_active_sensor harmonic _ Hr)).
Defined.

(** X3: in every reachable world the markers' keys are pairwise distinct
    and are the ids of their sensors, each marker stands at its sensor's
    position, and when a sensor is active exactly one marker is drawn as
    active, the one whose key is the active sensor's id; with no active
    sensor no marker is. *)
Theorem one_active_marker (random : nat -> Q) (w : World) :
  reachable random w ->
  NoDup (map key (nodes (view w))) /\
  Forall (fun node => key node = id (data node) /\
                      position node = pos (data node))
         (nodes (view w)) /\
  match activeSensor (state w) with
  | Some a =>
      List.length (filter isActive (nodes (view w))) = 1%nat /\
      Forall (fun node => isActive node = true <-> key node = id a)
             (nodes (view w))
  | None => Forall (fun node => isActive node = false) (nodes (view w))
  end.
Proof.
  intros Hr. pose proof (reachable_consistent random w Hr) as [_ [Hview Hact]].
  destruct (reachable_commit random w Hr) as [k Hc].
  destruct (commit_shape random _ _ _ Hc) as [_ [sensors [url [Hv Hreg]]]].
  unfold currentSensors in Hview. rewrite Hv in *. cbn [nodes] in *.
  rewrite nodes_data in Hview.
  assert (Hnd : NoDup (map id sensors)).
  { destruct Hreg as [[_ [_ ->]]|[_ [_ ->]]]; apply generated_ids_NoDup;
      vm_compute; discriminate. }
  split; [now rewrite sensorNode_key|].
  split.
  { apply Forall_forall. intros node Hin.
    apply in_map_iff in Hin as [s [<- _]]. split; reflexivity. }
  destruct (activeSensor (state w)) as [a|].
  - split.
    + rewrite filter_isActive. apply one_with_id; [exact Hnd|].
      rewrite <- Hview in Hact.
      apply in_map_iff in Hact as [s [Hs Hin]].
      unfold skeleton in Hs. injection Hs as Hid _ _.
      rewrite <- Hid. now apply in_map.
    + apply Forall_forall. intros node Hin.
      apply in_map_iff in Hin as [s [<- _]]. cbn.
      rewrite Z.eqb_eq. split; intros E; now symmetry.
  - apply Forall_forall. intros node Hin.
    apply in_map_iff in Hin as [s [<- _]]. reflexivity.
Qed.

Lemma one_active_marker_witness :
  reachable harmonic (worldAfter harmonic [ClickSensorNode 2]) /\
  NoDup (map key (nodes (view (worldAfter harmonic [ClickSensorNode 2])))).
Proof.
  assert (Hr : reachable harmonic (worldAfter harmonic [ClickSensorNode 2])).
  { apply worldAfter_reachable. vm_compute. reflexivity. }
  split; [exact Hr|].
  exact (proj1 (one_active_marker harmonic _ Hr)).
Defined.

(** X4: in every reachable world the terrain and the markers are those of
    the selected region: region m1 shows /mountain1.glb with one marker per
    anchor of m1 at the anchor's coordinates, region m2 shows /mountain2.glb
    with the anchors of m2, and no other region is ever selected. *)
Theorem view_is_of_selected_region (random : nat -> Q) (w : World) :
  reachable random w ->
  (selectedID (state w) = "m1" /\
   modelUrl (view w) = "/mountain1.glb" /\
   map position (nodes (view w))
   = map (fun a => [x a; y a; z a]) (m1 manualSensorPositions) /\
   map (fun node => label (data node)) (nodes (view w))
   = map anchorLabel (m1 manualSensorPositions)) \/
  (selectedID (state w) = "m2" /\
   modelUrl (view w) = "/mountain2.glb" /\
   map position (nodes (view w))
   = map (fun a => [x a; y a; z a]) (m2 manualSensorPositions) /\
   map (fun node => label (data node)) (nodes (view w))
   = map anchorLabel (m2 manualSensorPositions)).
Proof.
  intros Hr. destruct (reachable_commit random w Hr) as [k Hc].
  destruct (commit_shape random _ _ _ Hc) as [_ [sensors [url [Hv Hreg]]]].
  rewrite Hv. cbn [modelUrl nodes].
  assert (Hpos : map position (map (sensorNode (activeSensor (state w))) sensors)
                 = map pos sensors).
  { rewrite map_map. reflexivity. }
  assert (Hlab : map (fun node => label (data node))
                     (map (sensorNode (activeSensor (state w))) sensors)
                 = map label sensors).
  { rewrite map_map. reflexivity. }
  rewrite Hpos, Hlab.
  destruct Hreg as [[Hsel [-> ->]]|[Hsel [-> ->]]]; [left|right];
    (split; [exact Hsel|]); (split; [reflexivity|]);
    now rewrite generated_pos, generated_labels.
Qed.

Lemma view_is_of_selected_region_witness :
  reachable harmonic (worldAfter harmonic [ChangeRegion "m2"]) /\
  modelUrl (view (worldAfter harmonic [ChangeRegion "m2"])) = "/mountain2.glb".
Proof.
  assert (Hr : reachable harmonic (worldAfter harmonic [ChangeRegion "m2"])).
  { apply worldAfter_reachable. vm_compute. reflexivity. }
  split; [exact Hr|].
  destruct (view_is_of_selected_region harmonic _ Hr) as [[E _]|[_ [E _]]].
  - vm_compute in E. discriminate E.
  - exact E.
Defined.

Section Transitions.

Variable random : nat -> Q.

Lemma reachable_url w :
  reachable random w ->
  modelUrl (view w)
  = if String.eqb (selectedID (state w)) "m1" then "/mountain1.glb"
    else "/mountain2.glb".
Proof.
  intros Hr. destruct (reachable_commit random w Hr) as [k Hc].
  destruct (commit_shape random _ _ _ Hc) as [_ [sensors [url [Hv Hreg]]]].
  rewrite Hv. cbn [modelUrl].
  destruct Hreg as [[-> [-> _]]|[-> [-> _]]]; reflexivity.
Qed.

(** What an event does to the two state cells. *)
Lemma handle_cases e w st :
  handle e w = Some st ->
  (exists value, e = ChangeRegion value /\ st = selectRegion value (state w)) \/
  (selectedID st = selectedID (state w) /\
   (activeSensor st = None \/
    activeSensor st = activeSensor (state w) \/
    exists a, activeSensor st = Some a /\ In a (currentSensors w))).
Proof.
  intros He. destruct e as [value|i| |]; cbn [handle] in He.
  - destruct (existsb (String.eqb value) pickerOptions
              && negb (String.eqb value (selectedID (state w)))); [|discriminate].
    injection He as <-. left. now exists value.
  - destruct (nth_error (nodes (view w)) i) as [node|] eqn:Hn; [|discriminate].
    injection He as <-. right. split; [reflexivity|]. right. right.
    exists (data node). split; [reflexivity|].
    unfold currentSensors. apply in_map. now apply nth_error_In with i.
  - destruct (panel (view w)); [|discriminate].
    injection He as <-. right. split; [reflexivity|]. now left.
  - injection He as <-. right. split; [reflexivity|]. right. now left.
Qed.

Lemma generated_wellFormed positions mountainId k :
  (forall j, 0 <= random j < 1)%Q ->
  Forall wellFormed (fst (generateSensorsFromPositions random positions mountainId k)).
Proof.
  intros Hrange. unfold generateSensorsFromPositions.
  apply mapWithIndex_Forall. intros a i k'. split.
  - now apply sensorAt_metrics.
  - rewrite sensorAt_risk. apply riskOfDraws_cases.
Qed.

Lemma commit_wellFormed st k w :
  (forall j, 0 <= random j < 1)%Q ->
  commit random st k = Rendered w ->
  Forall wellFormed (currentSensors w).
Proof.
  intros Hrange Hc.
  destruct (commit_rendered random st k w Hc) as [_ [_ [[_ ->]|[_ ->]]]];
    now apply generated_wellFormed.
Qed.

End Transitions.

(** X5: a marker click, the close button and a re-render leave the scene's
    layout alone: the selected region, the terrain and the ids, labels and
    positions of the rendered sensors are those of the world before; only a
    region change moves them. *)
Theorem layout_kept_without_region_change (random : nat -> Q) (e : Event)
        (w w' : World) :
  reachable random w ->
  step random e w = Some (Rendered w') ->
  (forall value, e <> ChangeRegion value) ->
  selectedID (state w') = selectedID (state w) /\
  modelUrl (view w') = modelUrl (view w) /\
  map skeleton (currentSensors w') = map skeleton (currentSensors w).
Proof.
  intros Hr Hs Hne.
  assert (Hr' : reachable random w') by (now apply reach_step with w e).
  destruct (step_rendered random e w w' Hs) as [st [He Hc]].
  destruct (commit_shape random _ _ _ Hc) as [Hst _].
  assert (Hsel : selectedID (state w') = selectedID (state w)).
  { rewrite Hst. destruct (handle_cases e w st He) as [[value [E _]]|[E _]].
    - exfalso. exact (Hne value E).
    - exact E. }
  split; [exact Hsel|]. split.
  - rewrite (reachable_url random w Hr), (reachable_url random w' Hr').
    now rewrite Hsel.
  - destruct (reachable_consistent random w Hr) as [_ [Hv _]].
    destruct (reachable_consistent random w' Hr') as [_ [Hv' _]].
    now rewrite Hv, Hv', Hsel.
Qed.

Lemma layout_kept_without_region_change_witness :
  reachable harmonic (worldAfter harmonic []) /\
  step harmonic (ClickSensorNode 2) (worldAfter harmonic [])
  = Some (Rendered (worldAfter harmonic [ClickSensorNode 2])) /\
  map skeleton (currentSensors (worldAfter harmonic [ClickSensorNode 2]))
  = map skeleton (currentSensors (worldAfter harmonic [])).
Proof.
  assert (Hr : reachable harmonic (worldAfter harmonic [])).
  { apply worldAfter_reachable. vm_compute. reflexivity. }
  assert (Hs : step harmonic (ClickSensorNode 2) (worldAfter harmonic [])
               = Some (Rendered (worldAfter harmonic [ClickSensorNode 2]))).
  { vm_compute. reflexivity. }
  split; [exact Hr|]. split; [exact Hs|].
  apply (layout_kept_without_region_change harmonic _ _ _ Hr Hs).
  intros value. discriminate.
Defined.

(** X6: opening a marker and closing the panel is a round trip on the
    selection: from a reachable world a click on any rendered marker is
    offered and makes its sensor active, the close button is then offered,
    and the state after it is the state before with no active sensor (the
    state before itself, if none was active). *)
Theorem open_then_close (random : nat -> Q) (w : World) (i : nat)
        (node : SensorNodeProps) :
  reachable random w ->
  nth_error (nodes (view w)) i = Some node ->
  exists w1 w2,
    step random (ClickSensorNode i) w = Some (Rendered w1) /\
    state w1 = selectSensor (data node) (state w) /\
    step random ClickClose w1 = Some (Rendered w2) /\
    state w2 = clearSensor (state w) /\
    (activeSensor (state w) = None -> state w2 = state w).
Proof.
  intros Hr Hn.
  pose proof (reachable_consistent random w Hr) as [Hsel _].
  assert (He : handle (ClickSensorNode i) w
               = Some (selectSensor (data node) (state w))).
  { cbn [handle]. now rewrite Hn. }
  destruct (step_commits random _ w _ He Hsel) as [w1 [Hs1 Hc1]].
  destruct (commit_shape random _ _ _ Hc1) as [Hst1 [sensors [url [Hv1 _]]]].
  destruct (renderPanel_some random (data node) (snd (mountains random (drawn w))))
    as [hs Hp].
  assert (He2 : handle ClickClose w1 = Some (clearSensor (state w1))).
  { cbn [handle]. rewrite Hv1. cbn [panel selectSensor setActiveSensor activeSensor].
    now rewrite Hp. }
  assert (Hsel1 : In (selectedID (clearSensor (state w1))) pickerOptions).
  { now rewrite Hst1. }
  destruct (step_commits random _ w1 _ He2 Hsel1) as [w2 [Hs2 Hc2]].
  destruct (commit_shape random _ _ _ Hc2) as [Hst2 _].
  exists w1, w2. split; [exact Hs1|]. split; [exact Hst1|].
  split; [exact Hs2|].
  assert (Hclear : state w2 = clearSensor (state w)) by (now rewrite Hst2, Hst1).
  split; [exact Hclear|].
  intros Hnone. rewrite Hclear. destruct (state w) as [sid act].
  cbn in *. now subst act.
Qed.

Lemma open_then_close_witness :
  reachable harmonic (worldAfter harmonic []) /\
  exists node w1 w2,
    nth_error (nodes (view (worldAfter harmonic []))) 2 = Some node /\
    step harmonic (ClickSensorNode 2) (worldAfter harmonic []) = Some (Rendered w1) /\
    step harmonic ClickClose w1 = Some (Rendered w2) /\
    state w2 = clearSensor (state (worldAfter harmonic [])).
Proof.
  assert (Hr : reachable harmonic (worldAfter harmonic [])).
  { apply worldAfter_reachable. vm_compute. reflexivity. }
  split; [exact Hr|].
  destruct (nth_error (nodes (view (worldAfter harmonic []))) 2) as [node|] eqn:Hn;
    [|vm_compute in Hn; discriminate Hn].
  destruct (open_then_close harmonic _ 2 node Hr Hn)
    as [w1 [w2 [H1 [_ [H2 [H3 _]]]]]].
  exists node, w1, w2. auto.
Defined.

(** X8: for draws in [0,1), in every reachable world every rendered sensor
    and the active sensor (whose values the panel shows, even after they
    were replaced in the list) have their four metrics within the closed
    ranges and a risk among LOW, MEDIUM and HIGH. *)
Theorem telemetry_always_well_formed (random : nat -> Q) (w : World) :
  (forall j, 0 <= random j < 1)%Q ->
  reachable random w ->
  Forall wellFormed (currentSensors w) /\
  (forall a, activeSensor (state w) = Some a -> wellFormed a).
Proof.
  intros Hrange Hr. induction Hr as [w Hm|w e w' Hr [IHl IHa] Hs].
  - unfold mount in Hm. split; [now apply (commit_wellFormed random _ _ _ Hrange Hm)|].
    destruct (commit_shape random _ _ _ Hm) as [-> _]. discriminate.
  - destruct (step_rendered random e w w' Hs) as [st [He Hc]].
    split; [now apply (commit_wellFormed random _ _ _ Hrange Hc)|].
    destruct (commit_shape random _ _ _ Hc) as [-> _].
    intros a Ha.
    destruct (handle_cases e w st He) as [[value [_ ->]]|[_ [E|[E|[b [E Hin]]]]]].
    + discriminate Ha.
    + rewrite E in Ha. discriminate Ha.
    + rewrite E in Ha. now apply IHa.
    + rewrite E in Ha. injection Ha as <-.
      rewrite Forall_forall in IHl. now apply IHl.
Qed.

Lemma telemetry_always_well_formed_witness :
  (forall j, 0 <= harmonic j < 1)%Q /\
  reachable harmonic (worldAfter harmonic [ClickSensorNode 2; Rerender]) /\
  Forall wellFormed (currentSensors (worldAfter harmonic [ClickSensorNode 2; Rerender])).
Proof.
  assert (Hr : reachable harmonic (worldAfter harmonic [ClickSensorNode 2; Rerender])).
  { apply worldAfter_reachable. vm_compute. reflexivity. }
  split; [exact harmonic_range|]. split; [exact Hr|].
  exact (proj1 (telemetry_always_well_formed harmonic _ harmonic_range Hr)).
Defined.

(** X9: the trend strip of the panel has 12 bars, drawn from the 12 draws
    that follow, in order, each of height the binary64 value of
    [u * 60 + 30], hence in [30, 90] for draws in [0,1); without an active
    sensor nothing is drawn. *)
Theorem trend_strip (random : nat -> Q) (s : Sensor) (k : nat) :
  (forall j, 0 <= random j < 1)%Q ->
  renderPanel random None k = (None, k) /\
  snd (renderPanel random (Some s) k) = (k + 12)%nat /\
  exists p,
    fst (renderPanel random (Some s) k) = Some p /\
    trend p = map (fun j => round64 (round64 (random j * 60) + 30)) (seq k 12) /\
    List.length (trend p) = 12%nat /\
    Forall (fun h => 30 <= h /\ h <= 90)%Q (trend p).
Proof.
  intros Hrange. split; [reflexivity|].
  unfold renderPanel, bind, ret.
  destruct (trendBars_run random 12 k) as [Hs [Hl Hv]].
  destruct (trendBars random 12 k) as [hs k']. cbn [fst snd] in *.
  split; [exact Hs|]. eexists. split; [reflexivity|]. cbn [trend].
  split; [exact Hv|]. split; [exact Hl|].
  rewrite Hv. apply Forall_forall. intros h Hin.
  apply in_map_iff in Hin as [j [<- _]].
  exact (scaled_draw_range (random j) 60 30 ltac:(lia) ltac:(lia) ltac:(lia)
           (Hrange j)).
Qed.

Lemma trend_strip_witness :
  (forall j, 0 <= harmonic j < 1)%Q /\
  snd (renderPanel harmonic (Some strayReading) 0%nat) = 12%nat.
Proof.
  split; [exact harmonic_range|].
  exact (proj1 (proj2 (trend_strip harmonic strayReading 0%nat harmonic_range))).
Defined.

(** ** The marker and the badge *)

Lemma hoveredAfter_last (es : list PointerEvent) (e : PointerEvent) :
  hoveredAfter (es ++ [e]) = pointerMoved e (hoveredAfter es).
Proof. unfold hoveredAfter. now rewrite fold_left_app. Qed.

(** X10: a marker is highlighted by its ring exactly when its emissive
    intensity is above the baseline 2, that is when it is active or hovered;
    the intensity is 5 exactly for the active marker, whatever the pointer
    does, and 3 for a merely hovered one; the sphere's radius is 390 while
    hovered and 300 otherwise; and [hovered] only remembers the last pointer
    event, so that an inactive marker the pointer has left is back at radius
    300, intensity 2 and no ring. *)
Theorem marker_highlight (props : SensorNodeProps) (hovered : bool) :
  groupPosition (SensorNode props hovered) = position props /\
  (ringMesh (SensorNode props hovered) <> None
   <-> 2 < emissiveIntensity (sphere (SensorNode props hovered))) /\
  (ringMesh (SensorNode props hovered) <> None
   <-> isActive props = true \/ hovered = true) /\
  (emissiveIntensity (sphere (SensorNode props hovered)) = 5
   <-> isActive props = true) /\
  (emissiveIntensity (sphere (SensorNode props hovered)) = 3
   <-> isActive props = false /\ hovered = true) /\
  (exists r, sphereArgs (sphere (SensorNode props hovered)) = [r; 32%Q; 32%Q] /\
             (r == if hovered then 390 else 300)%Q) /\
  (forall es e, hoveredAfter (es ++ [e])
                = match e with PointerOver => true | PointerOut => false end) /\
  (forall es,
      isActive props = false ->
      ringMesh (SensorNode props (hoveredAfter (es ++ [PointerOut]))) = None /\
      emissiveIntensity (sphere (SensorNode props (hoveredAfter (es ++ [PointerOut]))))
      = 2).
Proof.
  split; [reflexivity|].
  unfold SensorNode. cbn [ringMesh sphere emissiveIntensity sphereArgs].
  split; [|split; [|split; [|split; [|split; [|split]]]]].
  - destruct (isActive props), hovered; cbn; split; intros H;
      try lia; try discriminate; try (exfalso; now apply H).
  - destruct (isActive props), hovered; cbn; split; intros H;
      try discriminate; auto; destruct H; discriminate.
  - destruct (isActive props), hovered; cbn; split; intros H;
      try reflexivity; try discriminate.
  - destruct (isActive props), hovered; cbn; split; intros H;
      try discriminate; auto; destruct H; discriminate.
  - eexists. split; [reflexivity|]. destruct hovered; reflexivity.
  - intros es e. rewrite hoveredAfter_last. now destruct e.
  - intros es Hoff. rewrite hoveredAfter_last, Hoff. cbn. auto.
Qed.

(** X11: the three colour expressions of a marker (material colour,
    emissive colour, ring colour) and the badge class of the panel classify
    a sensor's risk in the same way: red for HIGH, amber for MEDIUM, and
    green/emerald for every other string, known or not. *)
Theorem risk_colours_agree (props : SensorNodeProps) (hovered : bool) :
  emissive (sphere (SensorNode props hovered))
  = color (sphere (SensorNode props hovered)) /\
  (forall r, ringMesh (SensorNode props hovered) = Some r ->
             ringColor r = color (sphere (SensorNode props hovered))) /\
  ((risk (data props) = "HIGH" /\
    color (sphere (SensorNode props hovered)) = "#ef4444" /\
    badgeClassName (data props)
    = "px-3 py-1 rounded-full text-xs font-black uppercase tracking-wide bg-red-100 text-red-700") \/
   (risk (data props) = "MEDIUM" /\
    color (sphere (SensorNode props hovered)) = "#f59e0b" /\
    badgeClassName (data props)
    = "px-3 py-1 rounded-full text-xs font-black uppercase tracking-wide bg-amber-100 text-amber-700") \/
   (risk (data props) <> "HIGH" /\ risk (data props) <> "MEDIUM" /\
    color (sphere (SensorNode props hovered)) = "#10b981" /\
    badgeClassName (data props)
    = "px-3 py-1 rounded-full text-xs font-black uppercase tracking-wide bg-emerald-100 text-emerald-700")).
Proof.
  unfold SensorNode, badgeClassName. cbn [sphere color emissive ringMesh].
  split; [reflexivity|]. split.
  - intros r Hr. destruct (isActive props || hovered); [|discriminate].
    injection Hr as <-. reflexivity.
  - destruct (String.eqb_spec (risk (data props)) "HIGH") as [E|N].
    + left. rewrite E. auto.
    + destruct (String.eqb_spec (risk (data props)) "MEDIUM") as [E|N'].
      * right. left. rewrite E. auto.
      * right. right. auto.
Qed.

(** ** The camera log over several events *)

(** X12: the console only grows: after n change events of the camera it
    holds what it held before followed by 4 n new calls, and the page is
    the one before the first event. *)
Theorem camera_log_grows (numberToString : float -> string)
        (positions : list CameraLogger.Vector3) (b : CameraLogger.Browser) :
  CameraLogger.page (cameraChanges numberToString positions b)
  = CameraLogger.page b /\
  exists added,
    CameraLogger.console (cameraChanges numberToString positions b)
    = (CameraLogger.console b ++ added)%list /\
    List.length added = (4 * List.length positions)%nat.
Proof.
  unfold cameraChanges. revert b.
  induction positions as [|p rest IH]; intros b; cbn [fold_left].
  - split; [reflexivity|]. exists []. split; [now rewrite app_nil_r|reflexivity].
  - destruct (IH (CameraLogger.cameraChanged numberToString p b))
      as [Hpage [added [Hout Hlen]]].
    split; [exact Hpage|].
    rewrite Hout. unfold CameraLogger.cameraChanged, CameraLogger.handleChange.
    cbn [CameraLogger.console]. rewrite <- app_assoc.
    eexists. split; [reflexivity|].
    rewrite length_app, Hlen. cbn [List.length]. lia.
Qed.

(** ** Precision of the formatted metrics *)

Section Precision.

Local Open Scope Q_scope.

Lemma nearestInt_half (v : Q) :
  inject_Z (nearestInt v) - (1 # 2) <= v /\ v < inject_Z (nearestInt v) + (1 # 2).
Proof.
  unfold nearestInt.
  pose proof (Qfloor_le (v + (1 # 2))) as Hdown.
  pose proof (Qlt_floor (v + (1 # 2))) as Hup.
  rewrite inject_Z_plus in Hup. change (inject_Z 1) with 1 in Hup.
  split; lra.
Qed.

(** A value of [lo, hi] printed with [f] decimals and a unit reads back as
    the multiple of 10^-f nearest to it. *)
Lemma formatted_reads (v : Q) (f : nat) (unit : string) (lo hi : Z) :
  forallb (readsBack f unit) (zrange (lo * pow10 f) (hi * pow10 f)) = true ->
  (0 <= lo)%Z ->
  inject_Z lo <= v -> v <= inject_Z hi ->
  exists q, numericPart (toFixed v f ++ unit) = Some q /\
            q * inject_Z (pow10 f) - (1 # 2) <= v * inject_Z (pow10 f) /\
            v * inject_Z (pow10 f) < q * inject_Z (pow10 f) + (1 # 2).
Proof.
  intros Hall Hpos Hlo Hhi.
  assert (Hp : (0 < pow10 f)%Z) by (unfold pow10; apply Z.pow_pos_nonneg; lia).
  assert (Hv : 0 <= v).
  { apply Qle_trans with (inject_Z lo); [|exact Hlo].
    change 0 with (inject_Z 0). now rewrite <- Zle_Qle. }
  rewrite (toFixed_nonneg v f Hv).
  assert (HpQ : 0 < inject_Z (pow10 f)).
  { change 0 with (inject_Z 0). now rewrite <- Zlt_Qlt. }
  assert (Hn : (lo * pow10 f <= nearestInt (v * inject_Z (pow10 f))
                <= hi * pow10 f)%Z).
  { apply nearestInt_bounds; rewrite inject_Z_mult.
    - apply Qmult_le_compat_r; [exact Hlo | now apply Qlt_le_weak].
    - apply Qmult_le_compat_r; [exact Hhi | now apply Qlt_le_weak]. }
  destruct (readsBack_sound f unit _ _ _ Hall Hn) as [q [Hq Heq]].
  exists q. split; [exact Hq|].
  pose proof (nearestInt_half (v * inject_Z (pow10 f))) as Hclose.
  set (n := nearestInt (v * inject_Z (pow10 f))) in *.
  assert (Hqn : q * inject_Z (pow10 f) == inject_Z n).
  { rewrite Heq. unfold Qeq, Qmult, inject_Z. cbn [Qnum Qden].
    rewrite Pos2Z.inj_mul, Z2Pos.id by exact Hp. ring. }
  rewrite Hqn. exact Hclose.
Qed.

End Precision.

(** X13: for draws in [0,1) the number printed in each metric of a
    synthesized sensor is the binary64 value the code computed for it,
    rounded to the nearest printed unit: the temperature and the air
    moisture are off by at most 0.05, the humidity and the wind speed by at
    most 0.5 (the upper value on a tie). *)
Theorem printed_metrics_are_nearest (random : nat -> Q) (mountainId : Z)
        (p : Anchor) (i k : nat) :
  (forall j, 0 <= random j < 1)%Q ->
  (exists q, numericPart (temp (fst (sensorAt random mountainId p i k))) = Some q /\
             q - (1 # 20) <= tempValue (random k) < q + (1 # 20))%Q /\
  (exists q, numericPart (hum (fst (sensorAt random mountainId p i k))) = Some q /\
             q - (1 # 2) <= humValue (random (S k)) < q + (1 # 2))%Q /\
  (exists q, numericPart (wind (fst (sensorAt random mountainId p i k))) = Some q /\
             q - (1 # 2) <= windValue (random (S (S k))) < q + (1 # 2))%Q /\
  (exists q, numericPart (moisture (fst (sensorAt random mountainId p i k))) = Some q /\
             q - (1 # 20) <= moistureValue (random (S (S (S k)))) < q + (1 # 20))%Q.
Proof.
  intros Hrange. cbn [Nat.add].
  pose proof (tempValue_range _ (Hrange k)) as Ht.
  pose proof (humValue_range _ (Hrange (S k))) as Hh.
  pose proof (windValue_range _ (Hrange (S (S k)))) as Hw.
  pose proof (moistureValue_range _ (Hrange (S (S (S k))))) as Hm.
  assert (Et : temp (fst (sensorAt random mountainId p i k))
               = toFixed (tempValue (random k)) 1 ++ "°C").
  { unfold sensorAt, drawRisk, bind, mathRandom, ret;
      repeat match goal with
             | |- context [Qlt_le_dec ?a ?b] => destruct (Qlt_le_dec a b)
             end; reflexivity. }
  assert (Eh : hum (fst (sensorAt random mountainId p i k))
               = toFixed (humValue (random (S k))) 0 ++ "%").
  { unfold sensorAt, drawRisk, bind, mathRandom, ret;
      repeat match goal with
             | |- context [Qlt_le_dec ?a ?b] => destruct (Qlt_le_dec a b)
             end; reflexivity. }
  assert (Ew : wind (fst (sensorAt random mountainId p i k))
               = toFixed (windValue (random (S (S k)))) 0 ++ " km/h").
  { unfold sensorAt, drawRisk, bind, mathRandom, ret;
      repeat match goal with
             | |- context [Qlt_le_dec ?a ?b] => destruct (Qlt_le_dec a b)
             end; reflexivity. }
  assert (Em : moisture (fst (sensorAt random mountainId p i k))
               = toFixed (moistureValue (random (S (S (S k))))) 1 ++ " g/m³").
  { unfold sensorAt, drawRisk, bind, mathRandom, ret;
      repeat match goal with
             | |- context [Qlt_le_dec ?a ?b] => destruct (Qlt_le_dec a b)
             end; reflexivity. }
  rewrite Et, Eh, Ew, Em.
  split; [|split; [|split]].
  - destruct (formatted_reads (tempValue (random k)) 1 "°C" 5 20)
      as [q [Hq [H1 H2]]];
      [vm_compute; reflexivity | lia | apply Ht | apply Ht |].
    exists q. split; [exact Hq|].
    change (inject_Z (pow10 1)) with (10 # 1)%Q in H1, H2. lra.
  - destruct (formatted_reads (humValue (random (S k))) 0 "%" 60 90)
      as [q [Hq [H1 H2]]];
      [vm_compute; reflexivity | lia | apply Hh | apply Hh |].
    exists q. split; [exact Hq|].
    change (inject_Z (pow10 0)) with (1 # 1)%Q in H1, H2. lra.
  - destruct (formatted_reads (windValue (random (S (S k)))) 0 " km/h" 10 40)
      as [q [Hq [H1 H2]]];
      [vm_compute; reflexivity | lia | apply Hw | apply Hw |].
    exists q. split; [exact Hq|].
    change (inject_Z (pow10 0)) with (1 # 1)%Q in H1, H2. lra.
  - destruct (formatted_reads (moistureValue (random (S (S (S k))))) 1 " g/m³" 7 12)
      as [q [Hq [H1 H2]]];
      [vm_compute; reflexivity | lia | apply Hm | apply Hm |].
    exists q. split; [exact Hq|].
    change (inject_Z (pow10 1)) with (10 # 1)%Q in H1, H2. lra.
Qed.

Lemma printed_metrics_are_nearest_witness :
  (forall j, 0 <= harmonic j < 1)%Q /\
  (exists q, numericPart (temp (fst (sensorAt harmonic 1
                                       (mkAnchor 0 9463 2000 "Base Camp") 2 12%nat)))
             = Some q /\
             q - (1 # 20) <= tempValue (harmonic 12%nat) < q + (1 # 20))%Q.
Proof.
  split; [exact harmonic_range|].
  exact (proj1 (printed_metrics_are_nearest
                  harmonic 1 (mkAnchor 0 9463 2000 "Base Camp") 2 12 harmonic_range)).
Defined.

(** ** Draws of a render *)

Section RenderDraws.

Variable random : nat -> Q.

Lemma generated_drawn positions mountainId k :
  (k + 5 * List.length positions
   <= snd (generateSensorsFromPositions random positions mountainId k)
   <= k + 6 * List.length positions)%nat.
Proof.
  unfold generateSensorsFromPositions.
  rewrite (mapWithIndex_drawn (sensorAt random mountainId) drawsOf
             (sensorAt_drawn random mountainId) positions 0%nat k).
  pose proof (list_sum_bounds drawsOf 5 6
                (fst (mapWithIndex (sensorAt random mountainId) 0 positions k))
                drawsOf_bounds) as Hb.
  rewrite mapWithIndex_length in Hb. lia.
Qed.

Lemma mountains_drawn k :
  (k + 55 <= snd (mountains random k) <= k + 66)%nat.
Proof.
  unfold mountains, bind, ret.
  pose proof (generated_drawn (m1 manualSensorPositions) 1 k) as H1.
  destruct (generateSensorsFromPositions random (m1 manualSensorPositions) 1 k)
    as [s1 k1].
  pose proof (generated_drawn (m2 manualSensorPositions) 2 k1) as H2.
  destruct (generateSensorsFromPositions random (m2 manualSensorPositions) 2 k1)
    as [s2 k2].
  cbn in *. lia.
Qed.

Lemma dashboard_drawn st k :
  snd (MeghaGaahDashboard random st k)
  = snd (renderPanel random (activeSensor st) (snd (mountains random k))).
Proof.
  unfold MeghaGaahDashboard, bind.
  destruct (mountains random k) as [ms k1]. cbn [snd].
  destruct (renderPanel random (activeSensor st) k1) as [p k2]. cbn [snd].
  destruct (getProperty ms (selectedID st)); reflexivity.
Qed.

End RenderDraws.

(** X14: every render synthesizes the sensors of both regions, whichever is
    selected, and the trend strip when a sensor is active: a commit advances
    the random source by 55 to 66 draws, and by 12 more with an active
    sensor; it never rewinds it. *)
Theorem render_draw_count (random : nat -> Q) (st : AppState) (k : nat) (w : World) :
  commit random st k = Rendered w ->
  (k + 55 + match activeSensor st with Some _ => 12 | None => 0 end
   <= drawn w
   <= k + 66 + match activeSensor st with Some _ => 12 | None => 0 end)%nat.
Proof.
  intros Hc. unfold commit in Hc.
  pose proof (dashboard_drawn random st k) as Hd.
  pose proof (mountains_drawn random k) as Hm.
  destruct (MeghaGaahDashboard random st k) as [[v|] k']; [|discriminate].
  injection Hc as <-. cbn [drawn snd] in *. rewrite Hd.
  destruct (activeSensor st) as [a|].
  - unfold renderPanel, bind, ret.
    destruct (trendBars_run random 12 (snd (mountains random k))) as [Hs _].
    destruct (trendBars random 12 (snd (mountains random k))) as [hs k2].
    cbn [snd] in *. lia.
  - cbn. lia.
Qed.

Lemma render_draw_count_witness :
  commit harmonic initialState 0 = Rendered (worldAfter harmonic []) /\
  (0 + 55 + 0 <= drawn (worldAfter harmonic []) <= 0 + 66 + 0)%nat.
Proof.
  assert (Hc : commit harmonic initialState 0 = Rendered (worldAfter harmonic [])).
  { vm_compute. reflexivity. }
  split; [exact Hc|].
  exact (render_draw_count harmonic initialState 0 _ Hc).
Defined.
